(** * Surface-observation temperature classifier

    A shallow embedding of the last code cell of
    [notebooks/visualization/python-awips-WorkingWithSurfaceObs.ipynb]:
    the Celsius-to-Fahrenheit conversion with sentinel masking, and the
    loop that derives one filtered copy of the temperature array per
    threshold level and hands it to the station plot.

    numpy's [float64] is IEEE 754 binary64, which is what Rocq's primitive
    [float] is; arrays are lists of floats, and the arrays the cell
    allocates live in an explicit store so that copies and in-place masked
    assignments can be told apart. *)

From Stdlib Require Import Floats ZArith Lia Bool String.
From stdpp Require Import base list.

Open Scope float_scope.

(** ** Binary64 comparison *)

(** The three-way comparison behind [<?], [<=?] and [=?]:
    [None] exactly when an operand is NaN. *)
Definition fcmp (x y : float) : option comparison :=
  SFcompare (Prim2SF x) (Prim2SF y).

(** ** Python and numpy values *)

(** The exceptions the cell can raise: [levels[i+1]] and [colors[i]] out of
    range, and [max]/[min] of an empty list. *)
Inductive exn : Set := IndexError | ValueError.

Inductive outcome (A : Type) : Type :=
  | Returns (a : A)
  | Raises (e : exn).
Arguments Returns {A} a.
Arguments Raises {A} e.

Module Py.

(** [max(l)]: the running maximum is replaced by an item that compares
    greater ([item > maxval]); an empty argument is a [ValueError]. *)
Fixpoint max_from (m : float) (l : list float) : float :=
  match l with
  | [] => m
  | x :: l' => max_from (if m <? x then x else m) l'
  end.

Definition max (l : list float) : outcome float :=
  match l with
  | [] => Raises ValueError
  | x :: l' => Returns (max_from x l')
  end.

(** [min(l)]: replaced by an item that compares less ([item < minval]). *)
Fixpoint min_from (m : float) (l : list float) : float :=
  match l with
  | [] => m
  | x :: l' => min_from (if x <? m then x else m) l'
  end.

Definition min (l : list float) : outcome float :=
  match l with
  | [] => Raises ValueError
  | x :: l' => Returns (min_from x l')
  end.

(** [l[i]] for a non-negative index. *)
Definition getitem {A : Type} (l : list A) (i : nat) : outcome A :=
  match l !! i with
  | Some x => Returns x
  | None => Raises IndexError
  end.

End Py.

Module Np.

(** A one-dimensional [float64] array. *)
Abbreviation ndarray := (list float) (only parsing).

(** The value of [a] after [a[mask(a)] = 'nan'], for an elementwise
    comparison [mask]: the string is converted to the float NaN. *)
Definition putmask_nan (mask : float -> bool) (a : ndarray) : ndarray :=
  (fun x => if mask x then nan else x) <$> a.

(** [a * c] and [a + c] for a scalar [c]. *)
Definition mul_scalar (a : ndarray) (c : float) : ndarray :=
  (fun x => x * c) <$> a.
Definition add_scalar (a : ndarray) (c : float) : ndarray :=
  (fun x => x + c) <$> a.

End Np.

Import Np.

(** ** The cell, as functions of the arrays' values *)

(** The missing-value marker of the observations, [-9999.0]. *)
Definition sentinel : float := -9999.

(** The literal [1.8] denotes the binary64 value nearest to it. *)
Definition c_1_8 : float := 0x1.ccccccccccccdp+0.

(** Lines 204-206: [tair] after
    [tair = np.array(obs['temperature'], dtype=float)],
    [tair[tair == -9999.0] = 'nan'] and [tair = (tair*1.8)+32].
    The observation list is given by the float64 values [np.array] makes of
    its entries. *)
Definition tair (temperature : list float) : ndarray :=
  add_scalar
    (mul_scalar (putmask_nan (fun x => x =? sentinel) temperature) c_1_8) 32.

(** Lines 215-227: [subtair] at the end of the loop body for the level
    [temp] at position [i] of [levels], or the exception that interrupts
    the body.  A level meets the array in float64 (numpy coerces it), and
    Python compares numbers by value, so the schedule is given by the
    float64 values of its entries, which is exact for the integers of the
    notebook. *)
Definition subtair (levels : list float) (i : nat) (temp : float)
    (tair : ndarray) : outcome ndarray :=
  let subtair := tair in
  match Py.max levels with
  | Raises e => Raises e
  | Returns mx =>
    if temp =? mx then
      Returns (putmask_nan (fun x => x <? temp) subtair)
    else
      match Py.min levels with
      | Raises e => Raises e
      | Returns mn =>
        if temp =? mn then
          Returns (putmask_nan (fun x => temp <=? x) subtair)
        else
          let subtair := putmask_nan (fun x => x <? temp) subtair in
          match Py.getitem levels (i + 1) with
          | Raises e => Raises e
          | Returns next =>
            Returns (putmask_nan (fun x => next <=? x) subtair)
          end
      end
  end.

(** A schedule as the notebook intends it: numbers in strictly increasing
    order. *)
Fixpoint increasing_from (x : float) (l : list float) : bool :=
  match l with
  | [] => true
  | y :: l' => (x <? y) && increasing_from y l'
  end.

Definition strictly_increasing (l : list float) : bool :=
  match l with
  | [] => true
  | x :: l' => increasing_from x l'
  end.

Definition well_formed (levels : list float) : bool :=
  strictly_increasing levels && forallb (fun x => negb (is_nan x)) levels.

(** The schedule of the notebook. *)
Definition levels_nb : list float := [0; 10; 20; 30; 40; 50; 60; 70].
Definition colors_nb : list string :=
  ["purple"; "c"; "royalblue"; "darkgreen"; "green"; "y"; "orange"; "r"]%string.

(** Whether position [k] of the filtered array of the level at position [i]
    holds a number. *)
Definition defined_in_bin (levels : list float) (a : ndarray) (i k : nat)
    : bool :=
  match levels !! i with
  | Some temp =>
    match subtair levels i temp a with
    | Returns arr =>
      match arr !! k with
      | Some x => negb (is_nan x)
      | None => false
      end
    | Raises _ => false
    end
  | None => false
  end.

(** Position [k] of the filtered array holds [v] (the value is retained),
    respectively NaN (the entry is undefined). *)
Definition retains (o : outcome ndarray) (k : nat) (v : float) : Prop :=
  exists arr, o = Returns arr /\ arr !! k = Some v.

Definition undefined_at (o : outcome ndarray) (k : nat) : Prop :=
  exists arr, o = Returns arr /\ arr !! k = Some nan.

(** ** The cell, statement by statement, over a store of arrays

    The sequences the cell works on ([levels], the observation lists, the
    numpy arrays it creates) are objects in a store, named by their
    location; a variable holds a location.  [np.array] and [copy] allocate a
    new object, a masked assignment overwrites one in place.  The station
    plot is an external collaborator that only reads its arguments: a call
    of [plot_parameter] is recorded on the canvas, with the locations it
    was given. *)

Definition loc : Set := nat.
Bind Scope nat_scope with loc.

Record layer : Set := Layer {
  layer_lons : loc;
  layer_lats : loc;
  layer_values : loc;
  layer_color : string
}.

Record world : Type := World {
  heap : list (list float);
  canvas : list layer
}.

(** A statement runs in a world and leaves a world, also when it raises. *)
Definition M (A : Type) : Type := world -> outcome A * world.

#[local] Instance M_ret : MRet M := fun A a w => (Returns a, w).

#[local] Instance M_bind : MBind M := fun A B f m w =>
  match m w with
  | (Returns a, w') => f a w'
  | (Raises e, w') => (Raises e, w')
  end.

Definition lift {A : Type} (o : outcome A) : M A := fun w => (o, w).

(** Locations are handed out by [alloc] only, so a load finds its object. *)
Definition load (l : loc) : M (list float) :=
  fun w => (Returns (heap w !!! l), w).

Definition store (l : loc) (v : list float) : M unit :=
  fun w => (Returns tt, World (<[l := v]> (heap w)) (canvas w)).

Definition alloc (v : list float) : M loc :=
  fun w => (Returns (length (heap w)), World (heap w ++ [v]) (canvas w)).

(** [np.array(l, dtype=float)] and [a.copy()]: a new array with the same
    elements. *)
Definition np_array (l : loc) : M loc := v ← load l; alloc v.
Definition np_copy (a : loc) : M loc := v ← load a; alloc v.

(** [a[mask(a)] = 'nan']: in place. *)
Definition setmask_nan (a : loc) (mask : float -> bool) : M unit :=
  v ← load a; store a (putmask_nan mask v).

(** [a * c] and [a + c]: a new array. *)
Definition np_mul (a : loc) (c : float) : M loc :=
  v ← load a; alloc (mul_scalar v c).
Definition np_add (a : loc) (c : float) : M loc :=
  v ← load a; alloc (add_scalar v c).

(** [StationPlot(ax, lons, lats, ...).plot_parameter('C', values, color=c)]. *)
Definition plot_parameter (lons lats values : loc) (c : string) : M unit :=
  fun w => (Returns tt, World (heap w) (canvas w ++ [Layer lons lats values c])).

(** Lines 204-206; the result is the location bound to [tair]. *)
Definition convert_stmts (temperature : loc) : M loc :=
  tair ← np_array temperature;
  setmask_nan tair (fun x => x =? sentinel);;
  scaled ← np_mul tair c_1_8;
  np_add scaled 32.

(** Lines 215-231: the body of the loop for the pair [(i, temp)]. *)
Definition loop_body (colors : list string) (levels tair lats lons : loc)
    (i : nat) (temp : float) : M unit :=
  subtair ← np_copy tair;
  lv ← load levels;
  mx ← lift (Py.max lv);
  (if temp =? mx then
     setmask_nan subtair (fun x => x <? temp)
   else
     lv ← load levels;
     mn ← lift (Py.min lv);
     if temp =? mn then
       setmask_nan subtair (fun x => temp <=? x)
     else
       setmask_nan subtair (fun x => x <? temp);;
       lv ← load levels;
       next ← lift (Py.getitem lv (i + 1));
       setmask_nan subtair (fun x => next <=? x));;
  color ← lift (Py.getitem colors i);
  plot_parameter lons lats subtair color.

(** Line 213: [for i, temp in enumerate(levels)], from position [i] on.
    The iterator reads the list object at every step, so the recursion is
    on a step budget; [None] means that the budget ran out. *)
Fixpoint for_levels (fuel : nat) (colors : list string)
    (levels tair lats lons : loc) (i : nat) (w : world)
    : option (outcome unit * world) :=
  match fuel with
  | O => None
  | S fuel' =>
    match (heap w !!! levels) !! i with
    | None => Some (Returns tt, w)
    | Some temp =>
      match loop_body colors levels tair lats lons i temp w with
      | (Returns _, w') => for_levels fuel' colors levels tair lats lons (S i) w'
      | (Raises e, w') => Some (Raises e, w')
      end
    end
  end.

(** Lines 204-231: the whole cell; [lats] and [lons] are bound to the
    observation lists themselves. *)
Definition colorize (fuel : nat) (colors : list string)
    (levels temperature latitude longitude : loc) (w : world)
    : option (outcome unit * world) :=
  match convert_stmts temperature w with
  | (Returns tair, w') =>
    for_levels fuel colors levels tair latitude longitude 0 w'
  | (Raises e, w') => Some (Raises e, w')
  end.

(** What the canvas shows: every layer with its array read from the store. *)
Definition drawn (w : world) : list (string * list float) :=
  (fun ly => (layer_color ly, heap w !!! layer_values ly)) <$> canvas w.

(** The layers a run of the loop adds to the canvas: one per colour used,
    each with an array allocated for it, at consecutive locations from
    [base] on. *)
Definition new_layers (lons lats : loc) (base : nat) (cs : list string)
    : list layer :=
  imap (fun j c => Layer lons lats (base + j)%nat c) cs.

(** A store at the start of the loop: the notebook's schedule at location 0,
    a converted array at 1, latitudes at 2 and longitudes at 3; nothing is
    drawn yet. *)
Definition world_nb : world :=
  World [levels_nb; [nan; 41; 77; 167]; [35; 40; 45; 50];
         [-100; -95; -90; -85]] [].

(** The same store with a schedule out of order, and with none. *)
Definition world_unsorted : world :=
  World [[0; 20; 10]; [nan; 41; 77; 167]; [35; 40; 45; 50];
         [-100; -95; -90; -85]] [].

Definition world_empty : world :=
  World [[]; [-9999; 5]; [35; 40]; [-100; -95]] [].

(** A store at the start of the cell: the schedule at location 0, the
    observations [obs['temperature']], [obs['latitude']] and
    [obs['longitude']] at 1, 2 and 3. *)
Definition world_obs : world :=
  World [levels_nb; [-9999; 5; 25; 75]; [35; 40; 45; 50];
         [-100; -95; -90; -85]] [].

(** ** The request envelope

    Lines 59-62: the ring of corner points handed to [Polygon], built from
    the list [bbox] by indexing; the plot later takes [bbox] itself as its
    extent (line 177). *)

Definition point (bbox : list Z) (i j : nat) : outcome (Z * Z) :=
  match Py.getitem bbox i with
  | Raises e => Raises e
  | Returns x =>
    match Py.getitem bbox j with
    | Raises e => Raises e
    | Returns y => Returns (x, y)
    end
  end.

(** The elements of a list display, evaluated left to right. *)
Fixpoint display {A : Type} (items : list (outcome A)) : outcome (list A) :=
  match items with
  | [] => Returns []
  | Raises e :: _ => Raises e
  | Returns x :: rest =>
    match display rest with
    | Raises e => Raises e
    | Returns xs => Returns (x :: xs)
    end
  end.

Definition envelope_ring (bbox : list Z) : outcome (list (Z * Z)) :=
  display [point bbox 0 2; point bbox 0 3; point bbox 1 3; point bbox 1 2;
           point bbox 0 2].

(** ** Ordering of binary64 values *)

Module F64.

Lemma ltb_fcmp x y : (x <? y) = true <-> fcmp x y = Some Lt.
Proof.
  rewrite ltb_spec. unfold SFltb, fcmp.
  destruct (SFcompare _ _) as [[]|]; split; congruence.
Qed.

Lemma leb_fcmp x y :
  (x <=? y) = true <-> fcmp x y = Some Lt \/ fcmp x y = Some Eq.
Proof.
  rewrite leb_spec. unfold SFleb, fcmp.
  destruct (SFcompare _ _) as [[]|]; split; intros; try tauto; try congruence;
    destruct H; congruence.
Qed.

Lemma eqb_fcmp x y : (x =? y) = true <-> fcmp x y = Some Eq.
Proof.
  rewrite FloatAxioms.eqb_spec. unfold SFeqb, fcmp.
  destruct (SFcompare _ _) as [[]|]; split; congruence.
Qed.

Lemma SFcompare_refl s : s <> S754_nan -> SFcompare s s = Some Eq.
Proof.
  destruct s as [[]|[]| |[] m e]; simpl; intros H; try congruence;
    rewrite Z.compare_refl;
    change (Pos.compare_cont Eq m m) with (Pos.compare m m);
    now rewrite Pos.compare_refl.
Qed.

Lemma SFcompare_None s t :
  SFcompare s t = None <-> s = S754_nan \/ t = S754_nan.
Proof.
  destruct s as [[]|[]| |[] ? ?], t as [[]|[]| |[] ? ?]; simpl;
    split; intros H; try discriminate; try tauto;
    destruct H; discriminate.
Qed.

Lemma is_nan_Prim2SF x : is_nan x = true <-> Prim2SF x = S754_nan.
Proof.
  unfold is_nan. rewrite negb_true_iff, FloatAxioms.eqb_spec. unfold SFeqb.
  split.
  - intros H. destruct (Prim2SF x) eqn:E; trivial;
      rewrite SFcompare_refl in H by discriminate; discriminate.
  - intros ->. reflexivity.
Qed.

Lemma fcmp_None x y :
  fcmp x y = None <-> is_nan x = true \/ is_nan y = true.
Proof. unfold fcmp. now rewrite SFcompare_None, !is_nan_Prim2SF. Qed.

Lemma fcmp_refl x : is_nan x = false -> fcmp x x = Some Eq.
Proof.
  intros H. apply SFcompare_refl. intros E.
  apply is_nan_Prim2SF in E. congruence.
Qed.

(** [SFcompare] orders (sign, exponent, mantissa) lexicographically, so it
    is antisymmetric and transitive on every pair it relates. *)
Ltac cmp_cases :=
  repeat match goal with
  | |- context [Z.compare ?a ?b] => destruct (Z.compare_spec a b)
  | H : context [Z.compare ?a ?b] |- _ => destruct (Z.compare_spec a b)
  | |- context [Pos.compare_cont Eq ?a ?b] =>
      change (Pos.compare_cont Eq a b) with (Pos.compare a b);
      destruct (Pos.compare_spec a b)
  | H : context [Pos.compare_cont Eq ?a ?b] |- _ =>
      change (Pos.compare_cont Eq a b) with (Pos.compare a b) in H;
      destruct (Pos.compare_spec a b)
  end;
  simpl in *; subst; try congruence; try lia.

Lemma SFcompare_antisym s t :
  SFcompare t s = option_map CompOpp (SFcompare s t).
Proof.
  destruct s as [[]|[]| |[] ? ?], t as [[]|[]| |[] ? ?]; simpl;
    try reflexivity; cmp_cases.
Qed.

Lemma SFcompare_Lt_trans s t u c :
  SFcompare s t = Some Lt -> SFcompare t u = Some c -> c <> Gt ->
  SFcompare s u = Some Lt.
Proof.
  destruct s as [[]|[]| |[] ? ?], t as [[]|[]| |[] ? ?],
           u as [[]|[]| |[] ? ?]; simpl;
    intros H1 H2 H3; try congruence; cmp_cases.
Qed.

Lemma SFcompare_Eq_trans s t u c :
  SFcompare s t = Some Eq -> SFcompare t u = Some c ->
  SFcompare s u = Some c.
Proof.
  destruct s as [[]|[]| |[] ? ?], t as [[]|[]| |[] ? ?],
           u as [[]|[]| |[] ? ?]; simpl;
    intros H1 H2; try congruence; cmp_cases.
Qed.

(** The facts about [<?], [<=?] and [=?] the classifier relies on. *)

Lemma fcmp_antisym x y : fcmp y x = option_map CompOpp (fcmp x y).
Proof. apply SFcompare_antisym. Qed.

Lemma fcmp_defined x y c :
  fcmp x y = Some c -> is_nan x = false /\ is_nan y = false.
Proof.
  intros H. destruct (is_nan x) eqn:Ex, (is_nan y) eqn:Ey; auto;
    assert (N : fcmp x y = None) by (apply fcmp_None; auto); congruence.
Qed.

Lemma fcmp_total x y :
  is_nan x = false -> is_nan y = false -> exists c, fcmp x y = Some c.
Proof.
  intros Hx Hy. destruct (fcmp x y) as [c|] eqn:E; [now exists c|].
  apply fcmp_None in E. destruct E; congruence.
Qed.

Lemma ltb_defined x y :
  (x <? y) = true -> is_nan x = false /\ is_nan y = false.
Proof. rewrite ltb_fcmp. apply fcmp_defined. Qed.

Lemma ltb_nan_l x y : is_nan x = true -> (x <? y) = false.
Proof.
  intros H. destruct (x <? y) eqn:E; trivial.
  apply ltb_defined in E. destruct E; congruence.
Qed.

Lemma leb_nan_r x y : is_nan y = true -> (x <=? y) = false.
Proof.
  intros H. destruct (x <=? y) eqn:E; trivial.
  apply leb_fcmp in E. destruct E as [E|E]; apply fcmp_defined in E;
    destruct E; congruence.
Qed.

Lemma eqb_refl x : is_nan x = false -> (x =? x) = true.
Proof. intros H. apply eqb_fcmp. now apply fcmp_refl. Qed.

Lemma eqb_nan_l x y : is_nan x = true -> (x =? y) = false.
Proof.
  intros H. destruct (x =? y) eqn:E; trivial.
  apply eqb_fcmp, fcmp_defined in E. destruct E; congruence.
Qed.

(** For numbers, [x >= t] fails exactly when [x < t]. *)
Lemma leb_negb_ltb x t :
  is_nan x = false -> is_nan t = false -> (t <=? x) = negb (x <? t).
Proof.
  intros Hx Ht. destruct (fcmp_total x t Hx Ht) as [c Hc].
  pose proof (fcmp_antisym x t) as Ha. rewrite Hc in Ha. simpl in Ha.
  destruct (t <=? x) eqn:E1, (x <? t) eqn:E2; trivial; exfalso.
  - apply leb_fcmp in E1. apply ltb_fcmp in E2.
    rewrite E2 in Hc. injection Hc as <-. simpl in Ha.
    destruct E1; congruence.
  - assert (N1 : ~ (fcmp t x = Some Lt \/ fcmp t x = Some Eq))
      by (rewrite <- leb_fcmp; congruence).
    assert (N2 : fcmp x t <> Some Lt) by (rewrite <- ltb_fcmp; congruence).
    destruct c; simpl in Ha; auto; congruence.
Qed.

Lemma ltb_leb_trans x y z :
  (x <? y) = true -> (y <=? z) = true -> (x <? z) = true.
Proof.
  rewrite !ltb_fcmp, leb_fcmp. unfold fcmp. intros H1 [H2|H2];
    eapply SFcompare_Lt_trans; eauto; discriminate.
Qed.

Lemma ltb_trans x y z :
  (x <? y) = true -> (y <? z) = true -> (x <? z) = true.
Proof.
  rewrite !ltb_fcmp. unfold fcmp. intros H1 H2.
  eapply SFcompare_Lt_trans; eauto; discriminate.
Qed.

Lemma leb_ltb_trans x y z :
  (x <=? y) = true -> (y <? z) = true -> (x <? z) = true.
Proof.
  rewrite !ltb_fcmp, leb_fcmp. unfold fcmp. intros [H1|H1] H2.
  - eapply SFcompare_Lt_trans; eauto; discriminate.
  - eapply SFcompare_Eq_trans; eauto.
Qed.

Lemma ltb_not_leb x y : (x <? y) = true -> (y <=? x) = false.
Proof.
  intros H. destruct (ltb_defined _ _ H) as [Hx Hy].
  rewrite leb_negb_ltb by assumption. now rewrite H.
Qed.

Lemma ltb_not_eqb x y : (x <? y) = true -> (x =? y) = false.
Proof.
  intros H. destruct (x =? y) eqn:E; trivial.
  apply ltb_fcmp in H. apply eqb_fcmp in E. congruence.
Qed.

Lemma ltb_not_eqb_sym x y : (x <? y) = true -> (y =? x) = false.
Proof.
  intros H. destruct (y =? x) eqn:E; trivial.
  apply ltb_fcmp in H. apply eqb_fcmp in E.
  rewrite fcmp_antisym, H in E. discriminate.
Qed.

Lemma ltb_asym x y : (x <? y) = true -> (y <? x) = false.
Proof.
  intros H. destruct (y <? x) eqn:E; trivial.
  apply ltb_fcmp in H. apply ltb_fcmp in E.
  rewrite fcmp_antisym, H in E. discriminate.
Qed.

Lemma eqb_not_ltb x y : (x =? y) = true -> (x <? y) = false.
Proof.
  intros H. destruct (x <? y) eqn:E; trivial.
  apply ltb_fcmp in E. apply eqb_fcmp in H. congruence.
Qed.

Lemma ltb_irrefl x : (x <? x) = false.
Proof.
  destruct (x <? x) eqn:E; trivial.
  pose proof (ltb_asym _ _ E). congruence.
Qed.

Lemma leb_not_ltb x y : (x <=? y) = true -> (y <? x) = false.
Proof.
  intros H. destruct (y <? x) eqn:E; trivial.
  apply ltb_not_leb in E. congruence.
Qed.

(** Rocq's binary64 has one NaN. *)
Lemma is_nan_eq x : is_nan x = true -> x = nan.
Proof.
  intros H. apply Prim2SF_inj. apply is_nan_Prim2SF in H. now rewrite H.
Qed.

Lemma number_not_nan x : is_nan x = false -> x <> nan.
Proof. intros H ->. discriminate. Qed.

Lemma is_nan_nan : is_nan nan = true.
Proof. reflexivity. Qed.

End F64.

(** ** Schedules in increasing order *)

Section Schedule.

Lemma increasing_from_tail x y l :
  increasing_from x (y :: l) = true ->
  (x <? y) = true /\ increasing_from y l = true.
Proof. simpl. intros H. now apply andb_true_iff in H. Qed.

Lemma increasing_from_lookup l : forall x j y,
  increasing_from x l = true -> l !! j = Some y -> (x <? y) = true.
Proof.
  induction l as [|z l IH]; intros x j y Hinc Hj; [discriminate|].
  apply increasing_from_tail in Hinc as [Hxz Hl].
  destruct j as [|j]; simpl in Hj.
  - now injection Hj as <-.
  - eapply F64.ltb_trans; [exact Hxz|]. eapply IH; eauto.
Qed.

Lemma strictly_increasing_lookup l : forall i j x y,
  strictly_increasing l = true -> (i < j)%nat ->
  l !! i = Some x -> l !! j = Some y -> (x <? y) = true.
Proof.
  induction l as [|z l IH]; intros i j x y Hinc Hij Hi Hj; [discriminate|].
  destruct j as [|j]; [lia|]. simpl in Hj, Hinc.
  destruct i as [|i]; simpl in Hi.
  - injection Hi as <-. eapply increasing_from_lookup; eauto.
  - apply (IH i j); auto; [|lia].
    destruct l as [|z' l]; [reflexivity|].
    now apply increasing_from_tail in Hinc.
Qed.

Lemma max_from_increasing l : forall m,
  increasing_from m l = true ->
  (m :: l) !! length l = Some (Py.max_from m l).
Proof.
  induction l as [|z l IH]; intros m Hinc; [reflexivity|].
  apply increasing_from_tail in Hinc as [Hmz Hl].
  simpl. rewrite Hmz. now apply IH.
Qed.

Lemma min_from_increasing l : forall m,
  increasing_from m l = true -> Py.min_from m l = m.
Proof.
  induction l as [|z l IH]; intros m Hinc; [reflexivity|].
  pose proof Hinc as Hinc'.
  apply increasing_from_tail in Hinc as [Hmz Hl].
  simpl. rewrite (F64.ltb_asym _ _ Hmz).
  destruct l as [|z' l]; [reflexivity|].
  apply IH. apply increasing_from_tail in Hl as [Hzz' Hl'].
  simpl. rewrite (F64.ltb_trans _ _ _ Hmz Hzz'). exact Hl'.
Qed.

(** Of a schedule in increasing order, [max] is the last entry and [min]
    the first. *)
Lemma max_increasing levels :
  strictly_increasing levels = true -> levels <> [] ->
  exists mx, Py.max levels = Returns mx /\
             levels !! (length levels - 1)%nat = Some mx.
Proof.
  destruct levels as [|x l]; [congruence|]. intros Hinc _.
  exists (Py.max_from x l). split; [reflexivity|].
  simpl. rewrite Nat.sub_0_r. now apply max_from_increasing.
Qed.

Lemma min_increasing levels :
  strictly_increasing levels = true -> levels <> [] ->
  exists mn, Py.min levels = Returns mn /\ levels !! 0%nat = Some mn.
Proof.
  destruct levels as [|x l]; [congruence|]. intros Hinc _.
  exists x. split; [|reflexivity].
  simpl. f_equal. now apply min_from_increasing.
Qed.

Lemma well_formed_increasing levels :
  well_formed levels = true -> strictly_increasing levels = true.
Proof. unfold well_formed. intros H. now apply andb_true_iff in H. Qed.

Lemma well_formed_number levels i x :
  well_formed levels = true -> levels !! i = Some x -> is_nan x = false.
Proof.
  unfold well_formed. intros H Hi. apply andb_true_iff in H as [_ H].
  rewrite forallb_forall in H. apply negb_true_iff, H.
  apply list_elem_of_In, list_elem_of_lookup. eauto.
Qed.

(** Which branch the body takes at each position of such a schedule. *)
Lemma subtair_top levels i temp a :
  well_formed levels = true -> levels !! i = Some temp ->
  S i = length levels ->
  subtair levels i temp a = Returns (putmask_nan (fun x => x <? temp) a).
Proof.
  intros Hwf Hi Hlast.
  destruct (max_increasing levels) as (mx & Hmx & Hl).
  { now apply well_formed_increasing. }
  { intros ->. discriminate. }
  replace (length levels - 1)%nat with i in Hl by lia.
  assert (mx = temp) as -> by congruence.
  unfold subtair. rewrite Hmx, F64.eqb_refl; [reflexivity|].
  eapply well_formed_number; eauto.
Qed.

Lemma subtair_bottom levels temp a :
  well_formed levels = true -> levels !! 0%nat = Some temp ->
  (2 <= length levels)%nat ->
  subtair levels 0 temp a = Returns (putmask_nan (fun x => temp <=? x) a).
Proof.
  intros Hwf H0 Hlen.
  pose proof (well_formed_increasing _ Hwf) as Hinc.
  assert (Hne : levels <> []) by (intros ->; discriminate).
  destruct (max_increasing levels Hinc Hne) as (mx & Hmx & Hl).
  destruct (min_increasing levels Hinc Hne) as (mn & Hmn & Hf).
  assert (mn = temp) as -> by congruence.
  assert (Hlt : (temp <? mx) = true).
  { eapply (strictly_increasing_lookup levels 0 (length levels - 1));
      eauto; lia. }
  unfold subtair. rewrite Hmx, (F64.ltb_not_eqb _ _ Hlt), Hmn.
  rewrite F64.eqb_refl; [reflexivity|].
  eapply well_formed_number; eauto.
Qed.

Lemma subtair_interior levels i temp next a :
  well_formed levels = true -> (0 < i)%nat ->
  levels !! i = Some temp -> levels !! S i = Some next ->
  subtair levels i temp a =
    Returns (putmask_nan (fun x => next <=? x)
               (putmask_nan (fun x => x <? temp) a)).
Proof.
  intros Hwf Hpos Hi Hnext.
  pose proof (well_formed_increasing _ Hwf) as Hinc.
  assert (Hne : levels <> []) by (intros ->; discriminate).
  destruct (max_increasing levels Hinc Hne) as (mx & Hmx & Hl).
  destruct (min_increasing levels Hinc Hne) as (mn & Hmn & Hf).
  pose proof (lookup_lt_Some _ _ _ Hnext) as Hlen.
  assert (Hlt : (temp <? mx) = true).
  { eapply (strictly_increasing_lookup levels i (length levels - 1));
      eauto; lia. }
  assert (Hgt : (mn <? temp) = true).
  { eapply (strictly_increasing_lookup levels 0 i); eauto. }
  unfold subtair, Py.getitem.
  rewrite Hmx, (F64.ltb_not_eqb _ _ Hlt), Hmn.
  rewrite (F64.ltb_not_eqb_sym _ _ Hgt).
  replace (i + 1)%nat with (S i) by lia. now rewrite Hnext.
Qed.

(** The body returns at every position of such a schedule. *)
Lemma subtair_returns levels i temp a :
  well_formed levels = true -> levels !! i = Some temp ->
  exists arr, subtair levels i temp a = Returns arr.
Proof.
  intros Hwf Hi. pose proof (lookup_lt_Some _ _ _ Hi) as Hlen.
  destruct (decide (S i = length levels)) as [Hlast|Hlast].
  - eexists. now apply subtair_top.
  - destruct (levels !! S i) as [next|] eqn:Hn.
    2:{ apply lookup_ge_None in Hn. lia. }
    destruct i as [|i].
    + eexists. apply subtair_bottom; auto. lia.
    + eexists. eapply subtair_interior; eauto. lia.
Qed.

End Schedule.

(** ** Masked arrays, entry by entry *)

Section Entries.

Lemma putmask_nan_lookup mask (a : ndarray) k :
  putmask_nan mask a !! k = (fun x => if mask x then nan else x) <$> a !! k.
Proof. apply list_lookup_fmap. Qed.

Lemma putmask_nan_length mask (a : ndarray) :
  length (putmask_nan mask a) = length a.
Proof. apply length_fmap. Qed.

Lemma tair_lookup temperature k :
  tair temperature !! k =
    (fun c => (if c =? sentinel then nan else c) * c_1_8 + 32)
      <$> temperature !! k.
Proof.
  unfold tair, add_scalar, mul_scalar, putmask_nan.
  rewrite !list_lookup_fmap. now destruct (temperature !! k).
Qed.

Lemma tair_length temperature : length (tair temperature) = length temperature.
Proof.
  unfold tair, add_scalar, mul_scalar, putmask_nan.
  now rewrite !length_fmap.
Qed.

(** Whatever branch runs, the body only overwrites entries with NaN and
    keeps the length. *)
Lemma subtair_shape levels i temp a arr :
  subtair levels i temp a = Returns arr ->
  length arr = length a /\
  forall k x, a !! k = Some x -> arr !! k = Some x \/ arr !! k = Some nan.
Proof.
  unfold subtair. intros H.
  destruct (Py.max levels) as [mx|]; [|discriminate].
  destruct (temp =? mx).
  { injection H as <-. split; [apply putmask_nan_length|].
    intros k x Hk. rewrite putmask_nan_lookup, Hk. simpl.
    destruct (x <? temp); auto. }
  destruct (Py.min levels) as [mn|]; [|discriminate].
  destruct (temp =? mn).
  { injection H as <-. split; [apply putmask_nan_length|].
    intros k x Hk. rewrite putmask_nan_lookup, Hk. simpl.
    destruct (temp <=? x); auto. }
  destruct (Py.getitem levels (i + 1)) as [next|]; [|discriminate].
  injection H as <-. split; [now rewrite !putmask_nan_length|].
  intros k x Hk. rewrite !putmask_nan_lookup, Hk. simpl.
  destruct (x <? temp); simpl.
  - destruct (next <=? nan); auto.
  - destruct (next <=? x); auto.
Qed.

End Entries.

(** An entry that is either kept or overwritten, read back. *)
Lemma masked_entry (c : bool) (v : float) (arr : ndarray) k :
  is_nan v = false -> arr !! k = Some (if c then nan else v) ->
  (arr !! k = Some v <-> c = false) /\ (arr !! k = Some nan <-> c = true).
Proof.
  intros Hv ->. pose proof (F64.number_not_nan v Hv) as Hne.
  destruct c; split; split; intros H; try reflexivity; try discriminate;
    injection H as H; congruence.
Qed.

Lemma retains_returns arr k v :
  retains (Returns arr) k v <-> arr !! k = Some v.
Proof.
  split.
  - intros (arr' & E & H). now injection E as ->.
  - intros H. now exists arr.
Qed.

Lemma undefined_at_returns arr k :
  undefined_at (Returns arr) k <-> arr !! k = Some nan.
Proof.
  split.
  - intros (arr' & E & H). now injection E as ->.
  - intros H. now exists arr.
Qed.

(** ** The bins *)

(** What each kind of level keeps of a number [v] at position [k]. *)
Lemma bottom_entry levels L0 (a : ndarray) k v :
  well_formed levels = true -> (2 <= length levels)%nat ->
  levels !! 0%nat = Some L0 -> a !! k = Some v -> is_nan v = false ->
  exists arr, subtair levels 0 L0 a = Returns arr /\
              arr !! k = Some (if negb (v <? L0) then nan else v).
Proof.
  intros Hwf Hlen H0 Hk Hv. eexists. split; [now apply subtair_bottom|].
  rewrite putmask_nan_lookup, Hk. simpl.
  rewrite F64.leb_negb_ltb; auto. eapply well_formed_number; eauto.
Qed.

Lemma top_entry levels i Lmax (a : ndarray) k v :
  well_formed levels = true -> levels !! i = Some Lmax ->
  S i = length levels -> a !! k = Some v -> is_nan v = false ->
  exists arr, subtair levels i Lmax a = Returns arr /\
              arr !! k = Some (if negb (Lmax <=? v) then nan else v).
Proof.
  intros Hwf Hi Hlast Hk Hv. eexists. split; [now apply subtair_top|].
  rewrite putmask_nan_lookup, Hk. simpl.
  rewrite F64.leb_negb_ltb; auto; [|eapply well_formed_number; eauto].
  now rewrite negb_involutive.
Qed.

Lemma interior_entry levels i Li Lnext (a : ndarray) k v :
  well_formed levels = true -> (0 < i)%nat ->
  levels !! i = Some Li -> levels !! S i = Some Lnext ->
  a !! k = Some v -> is_nan v = false ->
  exists arr, subtair levels i Li a = Returns arr /\
              arr !! k =
                Some (if negb ((Li <=? v) && (v <? Lnext)) then nan else v).
Proof.
  intros Hwf Hpos Hi Hn Hk Hv. eexists.
  split; [eapply subtair_interior; eauto|].
  rewrite !putmask_nan_lookup, Hk. simpl.
  pose proof (well_formed_number _ _ _ Hwf Hi) as HLi.
  pose proof (well_formed_number _ _ _ Hwf Hn) as HLn.
  rewrite (F64.leb_negb_ltb v Li) by assumption.
  destruct (v <? Li); simpl.
  - now rewrite F64.leb_nan_r.
  - rewrite F64.leb_negb_ltb by assumption. now destruct (v <? Lnext).
Qed.

(** C1 (amended): for a schedule in increasing order with at least two
    levels and a number [v] of the converted array, the filtered array of
    the first level keeps [v] exactly when [v < levels[0]] and holds NaN
    otherwise; a value equal to [levels[0]] is therefore undefined in the
    bottom bin. *)
Theorem bottom_bin_keeps_below levels L0 (a : ndarray) k v :
  well_formed levels = true -> (2 <= length levels)%nat ->
  levels !! 0%nat = Some L0 -> a !! k = Some v -> is_nan v = false ->
  (retains (subtair levels 0 L0 a) k v <-> (v <? L0) = true) /\
  (undefined_at (subtair levels 0 L0 a) k <-> (v <? L0) = false) /\
  ((v =? L0) = true -> undefined_at (subtair levels 0 L0 a) k).
Proof.
  intros Hwf Hlen H0 Hk Hv.
  destruct (bottom_entry levels L0 a k v) as (arr & -> & Hentry); auto.
  destruct (masked_entry _ _ _ _ Hv Hentry) as [Hkeep Hdrop].
  rewrite retains_returns, undefined_at_returns, Hkeep, Hdrop.
  rewrite negb_false_iff, negb_true_iff.
  repeat split; auto. intros He. now apply F64.eqb_not_ltb.
Qed.

Lemma bottom_bin_keeps_below_witness :
  (retains (subtair levels_nb 0 0 [-4; 0; 41]) 0 (-4) <-> (-4 <? 0) = true) /\
  (undefined_at (subtair levels_nb 0 0 [-4; 0; 41]) 0 <-> (-4 <? 0) = false) /\
  ((-4 =? 0) = true -> undefined_at (subtair levels_nb 0 0 [-4; 0; 41]) 0).
Proof.
  apply (bottom_bin_keeps_below levels_nb 0 [-4; 0; 41] 0 (-4));
    [reflexivity | simpl; lia | reflexivity | reflexivity | reflexivity].
Defined.

(** C1 as stated fails for a schedule of one level: its only level is the
    maximum, the top rule applies, and 7 is kept although 7 < 5 is false. *)
Lemma bottom_bin_single_level_counterexample :
  well_formed [5] = true /\ is_nan 7 = false /\
  ~ (retains (subtair [5] 0 5 [7]) 0 7 <-> (7 <? 5) = true).
Proof.
  repeat split. intros [H _].
  assert (E : (7 <? 5) = true) by (apply H; exists [7]; split; reflexivity).
  discriminate E.
Qed.

(** C3: for a schedule in increasing order and a number [v] of the
    converted array, the filtered array of the last level keeps [v] exactly
    when [v >= levels[-1]], and such a [v] is undefined in the filtered
    array of every other level. *)
Theorem top_bin_keeps_at_or_above levels i Lmax (a : ndarray) k v :
  well_formed levels = true -> levels !! i = Some Lmax ->
  S i = length levels -> a !! k = Some v -> is_nan v = false ->
  (retains (subtair levels i Lmax a) k v <-> (Lmax <=? v) = true) /\
  ((Lmax <=? v) = true ->
   forall j Lj, j <> i -> levels !! j = Some Lj ->
     undefined_at (subtair levels j Lj a) k).
Proof.
  intros Hwf Hi Hlast Hk Hv.
  pose proof (well_formed_increasing _ Hwf) as Hinc.
  split.
  - destruct (top_entry levels i Lmax a k v) as (arr & -> & Hentry); auto.
    destruct (masked_entry _ _ _ _ Hv Hentry) as [Hkeep _].
    now rewrite retains_returns, Hkeep, negb_false_iff.
  - intros Hge j Lj Hne Hj.
    pose proof (lookup_lt_Some _ _ _ Hj) as Hjlen.
    assert (Hji : (j < i)%nat) by lia.
    destruct j as [|j].
    + destruct (bottom_entry levels Lj a k v) as (arr & -> & Hentry);
        auto; [lia|].
      apply undefined_at_returns. rewrite Hentry.
      assert (Hlt : (Lj <? Lmax) = true)
        by (eapply (strictly_increasing_lookup levels 0 i); eauto).
      now rewrite (F64.ltb_asym _ _ (F64.ltb_leb_trans _ _ _ Hlt Hge)).
    + destruct (levels !! S (S j)) as [Ln|] eqn:Hn.
      2:{ apply lookup_ge_None in Hn. lia. }
      destruct (interior_entry levels (S j) Lj Ln a k v)
        as (arr & -> & Hentry); auto; [lia|].
      apply undefined_at_returns. rewrite Hentry.
      assert (Hlow : (v <? Ln) = false).
      { destruct (decide (S (S j) = i)) as [E|Hlt].
        - rewrite E in Hn. assert (Ln = Lmax) as -> by congruence.
          now apply F64.leb_not_ltb.
        - assert (Hl : (Ln <? Lmax) = true).
          { eapply (strictly_increasing_lookup levels (S (S j)) i);
              eauto; lia. }
          apply F64.ltb_asym. eapply F64.ltb_leb_trans; eauto. }
      rewrite Hlow, andb_false_r. reflexivity.
Qed.

Lemma top_bin_keeps_at_or_above_witness :
  (retains (subtair levels_nb 7 70 [41; 77; 167]) 1 77 <-> (70 <=? 77) = true) /\
  ((70 <=? 77) = true ->
   forall j Lj, j <> 7%nat -> levels_nb !! j = Some Lj ->
     undefined_at (subtair levels_nb j Lj [41; 77; 167]) 1).
Proof.
  apply (top_bin_keeps_at_or_above levels_nb 7 70 [41; 77; 167] 1 77);
    reflexivity.
Defined.

(** C4: for a schedule in increasing order, a level [levels[i]] that is
    neither the first nor the last, and a number [v] of the converted
    array, the filtered array of that level keeps [v] exactly when
    [levels[i] <= v < levels[i+1]] and holds NaN otherwise. *)
Theorem interior_bin_keeps_between levels i Li Lnext (a : ndarray) k v :
  well_formed levels = true -> (0 < i)%nat ->
  levels !! i = Some Li -> levels !! S i = Some Lnext ->
  a !! k = Some v -> is_nan v = false ->
  (retains (subtair levels i Li a) k v <->
     (Li <=? v) = true /\ (v <? Lnext) = true) /\
  (undefined_at (subtair levels i Li a) k <->
     (Li <=? v) && (v <? Lnext) = false).
Proof.
  intros Hwf Hpos Hi Hn Hk Hv.
  destruct (interior_entry levels i Li Lnext a k v) as (arr & -> & Hentry);
    auto.
  destruct (masked_entry _ _ _ _ Hv Hentry) as [Hkeep Hdrop].
  rewrite retains_returns, undefined_at_returns, Hkeep, Hdrop.
  rewrite negb_false_iff, negb_true_iff, andb_true_iff. tauto.
Qed.

Lemma interior_bin_keeps_between_witness :
  (retains (subtair levels_nb 4 40 [41; 77; 167]) 0 41 <->
     (40 <=? 41) = true /\ (41 <? 50) = true) /\
  (undefined_at (subtair levels_nb 4 40 [41; 77; 167]) 0 <->
     (40 <=? 41) && (41 <? 50) = false).
Proof.
  apply (interior_bin_keeps_between levels_nb 4 40 50 [41; 77; 167] 0 41);
    [reflexivity | lia | reflexivity | reflexivity | reflexivity | reflexivity].
Defined.

(** ** Interior bins *)

Lemma defined_in_interior levels i Li Lnext (a : ndarray) k v :
  well_formed levels = true -> (0 < i)%nat ->
  levels !! i = Some Li -> levels !! S i = Some Lnext ->
  a !! k = Some v -> is_nan v = false ->
  defined_in_bin levels a i k = (Li <=? v) && (v <? Lnext).
Proof.
  intros Hwf Hpos Hi Hn Hk Hv.
  destruct (interior_entry levels i Li Lnext a k v) as (arr & E & Hentry);
    auto.
  unfold defined_in_bin. rewrite Hi, E, Hentry.
  destruct ((Li <=? v) && (v <? Lnext)); simpl; [now rewrite Hv|reflexivity].
Qed.

(** Walking up the schedule from a level at or below [v] to a level above
    it passes a pair of neighbours that encloses [v]. *)
Lemma enclosing_levels levels v :
  well_formed levels = true -> is_nan v = false ->
  forall d i Li Lmax,
    levels !! i = Some Li -> levels !! (i + d)%nat = Some Lmax ->
    (Li <=? v) = true -> (v <? Lmax) = true ->
    exists j Lj Ln, (i <= j < i + d)%nat /\
      levels !! j = Some Lj /\ levels !! S j = Some Ln /\
      (Lj <=? v) = true /\ (v <? Ln) = true.
Proof.
  intros Hwf Hv. induction d as [|d IH]; intros i Li Lmax Hi Hmax Hle Hlt.
  - rewrite Nat.add_0_r in Hmax. assert (Lmax = Li) as -> by congruence.
    apply F64.leb_not_ltb in Hle. congruence.
  - pose proof (lookup_lt_Some _ _ _ Hmax) as Hlen.
    destruct (levels !! S i) as [Ln|] eqn:Hn.
    2:{ apply lookup_ge_None in Hn. lia. }
    destruct (v <? Ln) eqn:Hcmp.
    + exists i, Li, Ln. repeat split; auto; lia.
    + assert (Hge : (Ln <=? v) = true).
      { rewrite F64.leb_negb_ltb, Hcmp; auto.
        eapply well_formed_number; eauto. }
      destruct (IH (S i) Ln Lmax) as (j & Lj & Lj' & Hr & H1 & H2 & H3 & H4);
        auto.
      { now replace (S i + d)%nat with (i + S d)%nat by lia. }
      exists j, Lj, Lj'. repeat split; auto; lia.
Qed.

(** C5 (amended): for a schedule in increasing order and a number [v] of
    the converted array with [levels[1] <= v < levels[-1]], exactly one
    level that is neither first nor last has [v] defined in its filtered
    array. *)
Theorem interior_bins_exactly_one levels L1 Lmax (a : ndarray) k v :
  well_formed levels = true ->
  levels !! 1%nat = Some L1 ->
  levels !! (length levels - 1)%nat = Some Lmax ->
  a !! k = Some v -> (L1 <=? v) = true -> (v <? Lmax) = true ->
  exists i, (0 < i < length levels - 1)%nat /\
    defined_in_bin levels a i k = true /\
    forall j, (0 < j < length levels - 1)%nat ->
      defined_in_bin levels a j k = true -> j = i.
Proof.
  intros Hwf H1 Hmax Hk Hle Hlt.
  pose proof (well_formed_increasing _ Hwf) as Hinc.
  destruct (F64.ltb_defined _ _ Hlt) as [Hv _].
  pose proof (lookup_lt_Some _ _ _ H1) as Hlen.
  destruct (enclosing_levels levels v Hwf Hv (length levels - 2) 1 L1 Lmax)
    as (i & Li & Ln & Hr & Hi & Hn & Hlo & Hhi); auto.
  { now replace (1 + (length levels - 2))%nat with (length levels - 1)%nat
      by lia. }
  exists i. split; [lia|]. split.
  { rewrite (defined_in_interior levels i Li Ln a k v); auto; [|lia].
    now rewrite Hlo, Hhi. }
  intros j Hj Hdef.
  destruct (levels !! j) as [Lj|] eqn:Hjl.
  2:{ apply lookup_ge_None in Hjl. lia. }
  destruct (levels !! S j) as [Ljn|] eqn:Hjn.
  2:{ apply lookup_ge_None in Hjn. lia. }
  rewrite (defined_in_interior levels j Lj Ljn a k v) in Hdef; auto; [|lia].
  apply andb_true_iff in Hdef as [Hjlo Hjhi].
  destruct (Nat.lt_trichotomy j i) as [Hlt'|[->|Hgt]]; [exfalso|reflexivity|exfalso].
  - (* v < levels[j+1] <= levels[i] <= v *)
    assert (Hc : (v <? Li) = true).
    { destruct (decide (S j = i)) as [E|Hne].
      - rewrite E in Hjn. congruence.
      - eapply F64.ltb_trans; [exact Hjhi|].
        eapply (strictly_increasing_lookup levels (S j) i); eauto. lia. }
    apply F64.ltb_not_leb in Hc. congruence.
  - assert (Hc : (v <? Lj) = true).
    { destruct (decide (S i = j)) as [E|Hne].
      - rewrite E in Hn. congruence.
      - eapply F64.ltb_trans; [exact Hhi|].
        eapply (strictly_increasing_lookup levels (S i) j); eauto. lia. }
    apply F64.ltb_not_leb in Hc. congruence.
Qed.

Lemma interior_bins_exactly_one_witness :
  exists i, (0 < i < length levels_nb - 1)%nat /\
    defined_in_bin levels_nb [41; 77; 167] i 0 = true /\
    forall j, (0 < j < length levels_nb - 1)%nat ->
      defined_in_bin levels_nb [41; 77; 167] j 0 = true -> j = i.
Proof.
  apply (interior_bins_exactly_one levels_nb 10 70 [41; 77; 167] 0 41);
    reflexivity.
Defined.

(** C5 as stated fails between the first two levels: 5 lies in
    [levels[0], levels[-1]) of the notebook's schedule and is defined in the
    filtered array of no level that is neither first nor last. *)
Lemma interior_bins_gap_counterexample :
  well_formed levels_nb = true /\ (0 <=? 5) = true /\ (5 <? 70) = true /\
  ~ exists i, (0 < i < length levels_nb - 1)%nat /\
      defined_in_bin levels_nb [5] i 0 = true.
Proof.
  repeat split. intros (i & Hr & Hdef). simpl in Hr.
  assert (Hi : i = 1%nat \/ i = 2%nat \/ i = 3%nat \/ i = 4%nat \/
               i = 5%nat \/ i = 6%nat) by lia.
  destruct Hi as [->|[->|[->|[->|[->| ->]]]]]; vm_compute in Hdef;
    discriminate Hdef.
Qed.

(** ** Conversion and sentinel *)

(** C2: the converted array has the length of the raw one; an entry equal
    to the sentinel [-9999.0] becomes NaN, because it is masked before the
    arithmetic runs, and so never the finite number [-17948.2]; every other
    entry [c] becomes [c*1.8+32]. *)
Theorem tair_conversion temperature k c :
  temperature !! k = Some c ->
  length (tair temperature) = length temperature /\
  ((c =? sentinel) = true ->
     tair temperature !! k = Some nan /\
     tair temperature !! k <> Some (-0x1.1870ccccccccdp+14)) /\
  ((c =? sentinel) = false ->
     tair temperature !! k = Some (c * c_1_8 + 32)).
Proof.
  intros Hk. split; [apply tair_length|].
  rewrite tair_lookup, Hk. simpl.
  split; intros ->; [split|]; [reflexivity|discriminate|reflexivity].
Qed.

Lemma tair_conversion_witness :
  length (tair [-9999; 5; 25; 75]) = length [-9999; 5; 25; 75] /\
  ((5 =? sentinel) = true ->
     tair [-9999; 5; 25; 75] !! 1%nat = Some nan /\
     tair [-9999; 5; 25; 75] !! 1%nat <> Some (-0x1.1870ccccccccdp+14)) /\
  ((5 =? sentinel) = false ->
     tair [-9999; 5; 25; 75] !! 1%nat = Some (5 * c_1_8 + 32)).
Proof.
  apply (tair_conversion [-9999; 5; 25; 75] 1 5). reflexivity.
Defined.

(** The scenario of the notebook's data: the sentinel is masked, the rest
    is converted. *)
Example tair_scenario : tair [-9999; 5; 25; 75] = [nan; 41; 77; 167].
Proof. reflexivity. Qed.

(** Converting the sentinel itself would give -17966.2. *)
Example sentinel_converted :
  sentinel * c_1_8 + 32 = -0x1.18b8ccccccccdp+14.
Proof. reflexivity. Qed.

(** A NaN entry stays NaN under every masked assignment of the body. *)
Lemma subtair_nan levels i temp (a arr : ndarray) k :
  subtair levels i temp a = Returns arr -> a !! k = Some nan ->
  arr !! k = Some nan.
Proof.
  intros H Hk. apply subtair_shape in H as [_ H].
  destruct (H k nan Hk); assumption.
Qed.

(** Whether the body raises is decided by the schedule, not by the data. *)
Lemma subtair_raises_any levels i temp (a a' : ndarray) e :
  subtair levels i temp a = Raises e -> subtair levels i temp a' = Raises e.
Proof.
  unfold subtair.
  destruct (Py.max levels) as [mx|]; [|trivial].
  destruct (temp =? mx); [discriminate|].
  destruct (Py.min levels) as [mn|]; [|trivial].
  destruct (temp =? mn); [discriminate|].
  destruct (Py.getitem levels (i + 1)); [discriminate|trivial].
Qed.

(** C7: an entry of the raw array equal to the sentinel is NaN in the
    filtered array of every level, and so is any NaN entry of the array
    being filtered: the comparisons never select it.  The comparisons do
    not raise either: the body returns at every level of a schedule in
    increasing order, and whether it raises never depends on the data. *)
Theorem sentinel_undefined_in_every_bin temperature levels i temp k c :
  temperature !! k = Some c -> (c =? sentinel) = true ->
  levels !! i = Some temp ->
  (forall arr, subtair levels i temp (tair temperature) = Returns arr ->
     arr !! k = Some nan) /\
  (forall (a arr : ndarray) x, a !! k = Some x -> is_nan x = true ->
     subtair levels i temp a = Returns arr -> arr !! k = Some nan) /\
  (well_formed levels = true ->
     undefined_at (subtair levels i temp (tair temperature)) k) /\
  (forall (a a' : ndarray) e,
     subtair levels i temp a = Raises e -> subtair levels i temp a' = Raises e).
Proof.
  intros Hk Hc Hi.
  assert (Ht : tair temperature !! k = Some nan).
  { rewrite tair_lookup, Hk. simpl. now rewrite Hc. }
  split; [|split; [|split]].
  - intros arr H. eapply subtair_nan; eauto.
  - intros a arr x Ha Hx H. apply F64.is_nan_eq in Hx as ->.
    eapply subtair_nan; eauto.
  - intros Hwf.
    destruct (subtair_returns levels i temp (tair temperature) Hwf Hi)
      as [arr E].
    rewrite E. apply undefined_at_returns. eapply subtair_nan; eauto.
  - intros a a' e. apply subtair_raises_any.
Qed.

Lemma sentinel_undefined_in_every_bin_witness :
  (forall arr,
     subtair levels_nb 7 70 (tair [-9999; 5; 25; 75]) = Returns arr ->
     arr !! 0%nat = Some nan) /\
  (forall (a arr : ndarray) x, a !! 0%nat = Some x -> is_nan x = true ->
     subtair levels_nb 7 70 a = Returns arr -> arr !! 0%nat = Some nan) /\
  (well_formed levels_nb = true ->
     undefined_at (subtair levels_nb 7 70 (tair [-9999; 5; 25; 75])) 0) /\
  (forall (a a' : ndarray) e,
     subtair levels_nb 7 70 a = Raises e ->
     subtair levels_nb 7 70 a' = Raises e).
Proof.
  apply (sentinel_undefined_in_every_bin [-9999; 5; 25; 75] levels_nb 7 70 0
           (-9999)); reflexivity.
Defined.

(** C8: conversion keeps the length of the measurement array, and so does
    the filtered array of every level: whenever the body returns, and it
    does return at every level of a schedule in increasing order. *)
Theorem bins_keep_length temperature levels i temp :
  levels !! i = Some temp ->
  length (tair temperature) = length temperature /\
  (forall arr, subtair levels i temp (tair temperature) = Returns arr ->
     length arr = length temperature) /\
  (well_formed levels = true ->
     exists arr, subtair levels i temp (tair temperature) = Returns arr /\
                 length arr = length temperature).
Proof.
  intros Hi. split; [apply tair_length|]. split.
  - intros arr H. apply subtair_shape in H as [H _].
    now rewrite H, tair_length.
  - intros Hwf.
    destruct (subtair_returns levels i temp (tair temperature) Hwf Hi)
      as [arr E].
    exists arr. split; [exact E|].
    apply subtair_shape in E as [E _]. now rewrite E, tair_length.
Qed.

Lemma bins_keep_length_witness :
  length (tair [-9999; 5; 25; 75]) = length [-9999; 5; 25; 75] /\
  (forall arr, subtair levels_nb 4 40 (tair [-9999; 5; 25; 75]) = Returns arr ->
     length arr = length [-9999; 5; 25; 75]) /\
  (well_formed levels_nb = true ->
     exists arr,
       subtair levels_nb 4 40 (tair [-9999; 5; 25; 75]) = Returns arr /\
       length arr = length [-9999; 5; 25; 75]).
Proof.
  apply (bins_keep_length [-9999; 5; 25; 75] levels_nb 4 40). reflexivity.
Defined.

(** C10: in a schedule of one level [L] the level equals [max(levels)],
    which is tested first, so the body applies the top rule: a number [v]
    is kept exactly when [v >= L], and a [v < L] is undefined. *)
Theorem single_level_uses_top_rule L (a : ndarray) k v :
  is_nan L = false -> a !! k = Some v -> is_nan v = false ->
  subtair [L] 0 L a = Returns (putmask_nan (fun x => x <? L) a) /\
  (retains (subtair [L] 0 L a) k v <-> (L <=? v) = true) /\
  ((v <? L) = true -> undefined_at (subtair [L] 0 L a) k).
Proof.
  intros HL Hk Hv.
  assert (Hwf : well_formed [L] = true) by (unfold well_formed; simpl; now rewrite HL).
  split; [now apply subtair_top|].
  destruct (top_entry [L] 0 L a k v) as (arr & -> & Hentry); auto.
  destruct (masked_entry _ _ _ _ Hv Hentry) as [Hkeep Hdrop].
  rewrite retains_returns, undefined_at_returns, Hkeep, Hdrop.
  rewrite negb_false_iff, negb_true_iff. split; [reflexivity|].
  intros Hlt. now apply F64.ltb_not_leb.
Qed.

Lemma single_level_uses_top_rule_witness :
  subtair [5] 0 5 [4; 5; 6] = Returns (putmask_nan (fun x => x <? 5) [4; 5; 6]) /\
  (retains (subtair [5] 0 5 [4; 5; 6]) 2 6 <-> (5 <=? 6) = true) /\
  ((6 <? 5) = true -> undefined_at (subtair [5] 0 5 [4; 5; 6]) 2).
Proof.
  apply (single_level_uses_top_rule 5 [4; 5; 6] 2 6); reflexivity.
Defined.

(** ** Running the statements *)

Section Store.

Implicit Types (h : list (list float)) (w : world).

Lemma load_old h l v x : h !! l = Some v -> (h ++ [x]) !!! l = v.
Proof.
  intros H. apply list_lookup_total_correct.
  rewrite lookup_app_l; [exact H|]. eapply lookup_lt_Some; eauto.
Qed.

Lemma load_new h x : (h ++ [x]) !!! length h = x.
Proof.
  apply list_lookup_total_correct. rewrite lookup_app_r by lia.
  now rewrite Nat.sub_diag.
Qed.

Lemma store_new h x y : <[length h := y]> (h ++ [x]) = h ++ [y].
Proof.
  rewrite insert_app_r_alt by lia. now rewrite Nat.sub_diag.
Qed.

(** Lines 204-206 allocate three arrays; the last one is [tair]. *)
Lemma convert_stmts_run temperature w raw :
  heap w !! temperature = Some raw ->
  convert_stmts temperature w =
    (Returns (length (heap w) + 2)%nat,
     World (heap w ++ [putmask_nan (fun x => x =? sentinel) raw;
                       mul_scalar (putmask_nan (fun x => x =? sentinel) raw)
                                  c_1_8;
                       tair raw])
           (canvas w)).
Proof.
  intros H.
  unfold convert_stmts, np_array, setmask_nan, np_mul, np_add, load, store,
    alloc, mbind, M_bind. cbn [heap canvas].
  rewrite (list_lookup_total_correct _ _ _ H).
  rewrite load_new, store_new, load_new.
  rewrite length_app. cbn [length].
  replace (length (heap w) + 1)%nat with (length (heap w ++ [putmask_nan (fun x => x =? sentinel) raw])).
  2:{ rewrite length_app. reflexivity. }
  rewrite load_new. rewrite !length_app. cbn [length].
  rewrite <- !app_assoc. cbn [app].
  do 2 f_equal. lia.
Qed.

(** Lines 215-231 allocate the copy, mask it in place and draw it. *)
Lemma loop_body_run colors levels tair lats lons i temp w lv a :
  heap w !! levels = Some lv -> heap w !! tair = Some a ->
  match subtair lv i temp a with
  | Returns arr =>
    loop_body colors levels tair lats lons i temp w =
      match colors !! i with
      | Some c =>
        (Returns tt,
         World (heap w ++ [arr])
               (canvas w ++ [Layer lons lats (length (heap w)) c]))
      | None => (Raises IndexError, World (heap w ++ [arr]) (canvas w))
      end
  | Raises e =>
    exists p, loop_body colors levels tair lats lons i temp w =
                (Raises e, World (heap w ++ [p]) (canvas w))
  end.
Proof.
  intros Hlv Ha.
  unfold loop_body, subtair, np_copy, setmask_nan, plot_parameter, lift,
    load, store, alloc, mbind, M_bind. cbn [heap canvas].
  rewrite (list_lookup_total_correct _ _ _ Ha).
  rewrite (load_old _ _ _ _ Hlv).
  destruct (Py.max lv) as [mx|e]; [|eauto].
  destruct (temp =? mx).
  { cbn [heap canvas]. rewrite load_new, store_new.
    unfold Py.getitem. destruct (colors !! i); reflexivity. }
  cbn [heap canvas]. rewrite (load_old _ _ _ _ Hlv).
  destruct (Py.min lv) as [mn|e]; [|eauto].
  destruct (temp =? mn).
  { cbn [heap canvas]. rewrite load_new, store_new.
    unfold Py.getitem. destruct (colors !! i); reflexivity. }
  cbn [heap canvas]. rewrite load_new, store_new, (load_old _ _ _ _ Hlv).
  destruct (Py.getitem lv (i + 1)) as [next|e]; [|eauto].
  cbn [heap canvas]. rewrite load_new, store_new.
  unfold Py.getitem. destruct (colors !! i); reflexivity.
Qed.

End Store.

(** ** The loop *)

Lemma new_layers_cons lons lats base c cs :
  new_layers lons lats base (c :: cs) =
    Layer lons lats base c :: new_layers lons lats (S base) cs.
Proof.
  unfold new_layers. rewrite imap_cons, Nat.add_0_r. f_equal.
  apply imap_ext. intros j x _. simpl. f_equal. lia.
Qed.

(** With a budget above the number of levels left, the loop stops by
    itself.  It appends the arrays [news] to the store and one layer per
    colour of [cs] to the canvas; the layers drawn hold the filtered arrays
    of their levels, and the loop raises exactly where a body does. *)
Lemma for_levels_run colors levels tair lats lons lv a :
  forall n i w fuel,
    heap w !! levels = Some lv -> heap w !! tair = Some a ->
    length lv = (i + n)%nat -> (n < fuel)%nat ->
    exists out news cs,
      for_levels fuel colors levels tair lats lons i w =
        Some (out, World (heap w ++ news)
                         (canvas w ++
                          new_layers lons lats (length (heap w)) cs)) /\
      (length cs <= length news)%nat /\
      (forall j c, cs !! j = Some c ->
         colors !! (i + j)%nat = Some c /\
         exists temp arr, lv !! (i + j)%nat = Some temp /\
           subtair lv (i + j) temp a = Returns arr /\
           news !! j = Some arr) /\
      match out with
      | Returns _ => length cs = n /\ length news = n
      | Raises e =>
        (length cs < n)%nat /\ length news = S (length cs) /\
        exists temp, lv !! (i + length cs)%nat = Some temp /\
          (subtair lv (i + length cs) temp a = Raises e \/
           (e = IndexError /\ colors !! (i + length cs)%nat = None /\
            exists arr, subtair lv (i + length cs) temp a = Returns arr))
      end.
Proof.
  induction n as [|n IH]; intros i w fuel Hlv Ha Hlen Hfuel;
    (destruct fuel as [|fuel]; [lia|]); cbn [for_levels];
    rewrite (list_lookup_total_correct _ _ _ Hlv).
  - rewrite (proj2 (lookup_ge_None lv i)) by lia.
    exists (Returns tt), [], []. destruct w as [h cv]. cbn.
    rewrite !app_nil_r.
    split; [reflexivity|]. split; [reflexivity|]. split; [|split; reflexivity].
    intros ? ? Hj. discriminate.
  - destruct (lv !! i) as [temp|] eqn:Hi.
    2:{ apply lookup_ge_None in Hi. lia. }
    pose proof (loop_body_run colors levels tair lats lons i temp w lv a
                  Hlv Ha) as Hbody.
    destruct (subtair lv i temp a) as [arr|e] eqn:Hsub.
    + rewrite Hbody. destruct (colors !! i) as [c|] eqn:Hc.
      * destruct (IH (S i)
                    (World (heap w ++ [arr])
                       (canvas w ++ [Layer lons lats (length (heap w)) c]))
                    fuel)
          as (out & news & cs & Hrun & Hle & Hcs & Hout); cbn [heap canvas].
        { apply lookup_app_l_Some, Hlv. }
        { apply lookup_app_l_Some, Ha. }
        { lia. }
        { lia. }
        exists out, (arr :: news), (c :: cs).
        rewrite Hrun. cbn [heap canvas].
        rewrite new_layers_cons, length_app, <- !app_assoc. cbn [length app].
        replace (length (heap w) + 1)%nat with (S (length (heap w))) by lia.
        split; [reflexivity|]. split; [lia|]. split.
        { intros [|j] c' Hj; simpl in Hj.
          - injection Hj as <-. rewrite Nat.add_0_r. split; [exact Hc|].
            exists temp, arr. auto.
          - destruct (Hcs j c' Hj) as (H1 & t & ar & H2 & H3 & H4).
            replace (i + S j)%nat with (S i + j)%nat by lia.
            split; [exact H1|]. exists t, ar. auto. }
        destruct out as [[]|e]; cbn [length].
        -- lia.
        -- destruct Hout as (Hlt & Hn & t & H1 & H2).
           replace (i + S (length cs))%nat with (S i + length cs)%nat by lia.
           split; [lia|]. split; [lia|]. exists t. auto.
      * exists (Raises IndexError), [arr], []. cbn.
        rewrite app_nil_r, Nat.add_0_r.
        split; [reflexivity|]. split; [lia|].
        split; [intros ? ? Hj; discriminate|]. split; [lia|].
        split; [reflexivity|]. exists temp. split; [exact Hi|]. right. rewrite Hsub. eauto.
    + destruct Hbody as [p Hbody]. rewrite Hbody.
      exists (Raises e), [p], []. cbn.
      rewrite app_nil_r, Nat.add_0_r.
      split; [reflexivity|]. split; [lia|].
      split; [intros ? ? Hj; discriminate|]. split; [lia|].
      split; [reflexivity|]. exists temp. split; [exact Hi|]. now left.
Qed.

Lemma new_layers_values lons lats cs : forall base,
  layer_values <$> new_layers lons lats base cs = seq base (length cs).
Proof.
  induction cs as [|c cs IH]; intros base; [reflexivity|].
  rewrite new_layers_cons. cbn. now rewrite IH.
Qed.

Lemma new_layers_elem lons lats base cs ly :
  ly ∈ new_layers lons lats base cs ->
  layer_lons ly = lons /\ layer_lats ly = lats /\
  (base <= layer_values ly < base + length cs)%nat.
Proof.
  unfold new_layers. intros H.
  apply elem_of_lookup_imap in H as (j & c & -> & Hj).
  apply lookup_lt_Some in Hj. cbn. repeat split; lia.
Qed.

Lemma new_layers_length lons lats base cs :
  length (new_layers lons lats base cs) = length cs.
Proof. apply length_imap. Qed.

(** Inside the loop the only exception of the body's bucketing is the
    [IndexError] of [levels[i+1]]. *)
Lemma subtair_raises levels i temp (a : ndarray) e :
  levels !! i = Some temp -> subtair levels i temp a = Raises e ->
  e = IndexError.
Proof.
  intros Hi. unfold subtair, Py.getitem.
  destruct levels as [|x l]; [discriminate|]. cbn [Py.max Py.min].
  destruct (temp =? Py.max_from x l); [discriminate|].
  destruct (temp =? Py.min_from x l); [discriminate|].
  destruct ((x :: l) !! (i + 1)%nat); [discriminate|]. congruence.
Qed.

(** C9: a pass of the loop changes no object that was in the store before
    it, so the converted array, the latitude and longitude lists and the
    schedule are as they were; every layer it draws carries the given
    coordinates and an array of its own, allocated during the pass and
    different from the array of every other layer; a pass that returns has
    drawn one layer per level. *)
Theorem bucketing_leaves_sources_unchanged
    colors levels tair lats lons w lv (a : ndarray) fuel :
  heap w !! levels = Some lv -> heap w !! tair = Some a ->
  (length lv < fuel)%nat ->
  exists out w' layers,
    for_levels fuel colors levels tair lats lons 0 w = Some (out, w') /\
    (forall l v, heap w !! l = Some v -> heap w' !! l = Some v) /\
    canvas w' = canvas w ++ layers /\
    (forall ly, ly ∈ layers ->
       layer_lons ly = lons /\ layer_lats ly = lats /\
       (length (heap w) <= layer_values ly < length (heap w'))%nat) /\
    NoDup (layer_values <$> layers) /\
    (out = Returns tt -> length layers = length lv).
Proof.
  intros Hlv Ha Hfuel.
  destruct (for_levels_run colors levels tair lats lons lv a
              (length lv) 0 w fuel Hlv Ha)
    as (out & news & cs & Hrun & Hle & _ & Hout); [reflexivity|lia|].
  exists out, (World (heap w ++ news)
                 (canvas w ++ new_layers lons lats (length (heap w)) cs)),
    (new_layers lons lats (length (heap w)) cs).
  cbn [heap canvas]. split; [exact Hrun|]. split.
  { intros l v H. now apply lookup_app_l_Some. }
  split; [reflexivity|]. split.
  { intros ly Hly. apply new_layers_elem in Hly as (H1 & H2 & H3).
    rewrite length_app. repeat split; auto; lia. }
  split.
  { rewrite new_layers_values. apply NoDup_seq. }
  intros ->. rewrite new_layers_length. apply Hout.
Qed.

Lemma bucketing_leaves_sources_unchanged_witness :
  exists out w' layers,
    for_levels 9 colors_nb 0 1 2 3 0 world_nb = Some (out, w') /\
    (forall l v, heap world_nb !! l = Some v -> heap w' !! l = Some v) /\
    canvas w' = canvas world_nb ++ layers /\
    (forall ly, ly ∈ layers ->
       layer_lons ly = 3%nat /\ layer_lats ly = 2%nat /\
       (length (heap world_nb) <= layer_values ly < length (heap w'))%nat) /\
    NoDup (layer_values <$> layers) /\
    (out = Returns tt -> length layers = length levels_nb).
Proof.
  apply (bucketing_leaves_sources_unchanged colors_nb 0 1 2 3 world_nb
           levels_nb [nan; 41; 77; 167] 9);
    [reflexivity | reflexivity | simpl; lia].
Defined.

(** ** No validation of the schedule *)

(** C6 (amended): the pass does not check the schedule before it starts.
    Whatever the schedule, an exception of the pass is an [IndexError]
    raised inside the body of some level, after that level's copy of the
    array was allocated.  For a schedule in increasing order: with at least
    as many colours as levels the pass returns and has drawn one layer per
    level; with fewer colours than levels it raises [IndexError] at the
    first level without a colour, after a layer was drawn for every level
    that has one. *)
Theorem schedule_not_validated
    colors levels tair lats lons w lv (a : ndarray) fuel :
  heap w !! levels = Some lv -> heap w !! tair = Some a ->
  (length lv < fuel)%nat ->
  exists out w',
    for_levels fuel colors levels tair lats lons 0 w = Some (out, w') /\
    (forall e, out = Raises e ->
       e = IndexError /\ (length (heap w) < length (heap w'))%nat) /\
    (well_formed lv = true -> (length lv <= length colors)%nat ->
       out = Returns tt /\
       length (canvas w') = (length (canvas w) + length lv)%nat) /\
    (well_formed lv = true -> (length colors < length lv)%nat ->
       out = Raises IndexError /\
       length (canvas w') = (length (canvas w) + length colors)%nat).
Proof.
  intros Hlv Ha Hfuel.
  destruct (for_levels_run colors levels tair lats lons lv a
              (length lv) 0 w fuel Hlv Ha)
    as (out & news & cs & Hrun & Hle & Hcs & Hout); [reflexivity|lia|].
  exists out, (World (heap w ++ news)
                 (canvas w ++ new_layers lons lats (length (heap w)) cs)).
  cbn [heap canvas]. rewrite !length_app, new_layers_length.
  split; [exact Hrun|].
  assert (Hcol : (length cs <= length colors)%nat).
  { destruct (decide (length cs <= length colors)%nat) as [|Hgt]; [assumption|].
    destruct (cs !! length colors) as [c|] eqn:Hc.
    - destruct (Hcs _ _ Hc) as [Hc' _]. apply lookup_lt_Some in Hc'. lia.
    - apply lookup_ge_None in Hc. lia. }
  split; [|split].
  - intros e ->. destruct Hout as (_ & Hn & temp & Ht & [Hr|(-> & _)]).
    + split; [|lia]. eapply subtair_raises; eauto.
    + split; [reflexivity|lia].
  - intros Hwf Hlen. destruct out as [[]|e].
    + split; [reflexivity|]. destruct Hout as [-> _]. reflexivity.
    + exfalso. destruct Hout as (Hlt & _ & temp & Ht & Hr). simpl in Ht.
      destruct (subtair_returns lv (length cs) temp a Hwf Ht) as [arr E].
      destruct Hr as [Hr|(_ & Hnone & _)]; simpl in *; [congruence|].
      apply lookup_ge_None in Hnone. lia.
  - intros Hwf Hlen. destruct out as [[]|e].
    + exfalso. destruct Hout as [Hn _]. lia.
    + destruct Hout as (Hlt & _ & temp & Ht & Hr). simpl in Ht.
      destruct (subtair_returns lv (length cs) temp a Hwf Ht) as [arr E].
      destruct Hr as [Hr|(-> & Hnone & _)]; simpl in *; [congruence|].
      apply lookup_ge_None in Hnone. split; [reflexivity|lia].
Qed.

Lemma schedule_not_validated_witness :
  exists out w',
    for_levels 9 colors_nb 0 1 2 3 0 world_nb = Some (out, w') /\
    (forall e, out = Raises e ->
       e = IndexError /\ (length (heap world_nb) < length (heap w'))%nat) /\
    (well_formed levels_nb = true ->
     (length levels_nb <= length colors_nb)%nat ->
       out = Returns tt /\
       length (canvas w') = (length (canvas world_nb) + length levels_nb)%nat) /\
    (well_formed levels_nb = true ->
     (length colors_nb < length levels_nb)%nat ->
       out = Raises IndexError /\
       length (canvas w') = (length (canvas world_nb) + length colors_nb)%nat).
Proof.
  apply (schedule_not_validated colors_nb 0 1 2 3 world_nb levels_nb
           [nan; 41; 77; 167] 9);
    [reflexivity | reflexivity | simpl; lia].
Defined.

(** C6 as stated fails: the cell run on seven levels and eight colours
    returns, having drawn seven layers, and so does the cell run on the
    schedule [10, 10], which is not strictly increasing. *)
Lemma no_configuration_error_counterexample :
  (length [0; 10; 20; 30; 40; 50; 60] = 7%nat /\ length colors_nb = 8%nat /\
   exists w',
     colorize 9 colors_nb 0 1 2 3
       (World [[0; 10; 20; 30; 40; 50; 60]; [-9999; 5; 25; 75];
               [35; 40; 45; 50]; [-100; -95; -90; -85]] [])
       = Some (Returns tt, w') /\
     length (canvas w') = 7%nat) /\
  (strictly_increasing [10; 10] = false /\
   exists w',
     colorize 9 colors_nb 0 1 2 3
       (World [[10; 10]; [-9999; 5; 25; 75];
               [35; 40; 45; 50]; [-100; -95; -90; -85]] [])
       = Some (Returns tt, w') /\
     length (canvas w') = 2%nat).
Proof.
  split; (split; [reflexivity|]).
  - split; [reflexivity|]. eexists. split; vm_compute; reflexivity.
  - eexists. split; vm_compute; reflexivity.
Qed.

(** ** The cell as a whole *)

(** On a schedule in increasing order with a colour for every level the
    loop returns, and its layers are the filtered arrays in schedule
    order. *)
Lemma for_levels_returns colors levels tair lats lons w lv (a : ndarray) fuel :
  heap w !! levels = Some lv -> heap w !! tair = Some a ->
  (length lv < fuel)%nat ->
  well_formed lv = true -> (length lv <= length colors)%nat ->
  exists news cs,
    for_levels fuel colors levels tair lats lons 0 w =
      Some (Returns tt,
            World (heap w ++ news)
                  (canvas w ++ new_layers lons lats (length (heap w)) cs)) /\
    length cs = length lv /\ length news = length lv /\
    forall j c, cs !! j = Some c ->
      colors !! j = Some c /\
      exists temp arr, lv !! j = Some temp /\
        subtair lv j temp a = Returns arr /\ news !! j = Some arr.
Proof.
  intros Hlv Ha Hfuel Hwf Hlen.
  destruct (for_levels_run colors levels tair lats lons lv a
              (length lv) 0 w fuel Hlv Ha)
    as (out & news & cs & Hrun & Hle & Hcs & Hout); [reflexivity|lia|].
  destruct out as [[]|e].
  - exists news, cs. destruct Hout as [H1 H2]. auto.
  - exfalso. destruct Hout as (Hlt & _ & temp & Ht & Hr). simpl in Ht.
    destruct (subtair_returns lv (length cs) temp a Hwf Ht) as [arr E].
    destruct Hr as [Hr|(_ & Hnone & _)]; simpl in *; [congruence|].
    apply lookup_ge_None in Hnone. lia.
Qed.

(** X1: the whole cell computes what the value-level functions say:
    started with an empty canvas on a schedule in increasing order with a
    colour for every level, it returns and has drawn one layer per level;
    layer [i] of the canvas shows the filtered array [subtair] of level [i]
    of the converted array [tair], in the colour [colors[i]]; the
    observation list is as it was. *)
Theorem colorize_draws_bins
    colors levels temperature lats lons w lv raw fuel :
  heap w !! levels = Some lv -> heap w !! temperature = Some raw ->
  canvas w = [] -> (length lv < fuel)%nat ->
  well_formed lv = true -> (length lv <= length colors)%nat ->
  exists w',
    colorize fuel colors levels temperature lats lons w =
      Some (Returns tt, w') /\
    heap w' !! temperature = Some raw /\
    length (drawn w') = length lv /\
    forall i temp, lv !! i = Some temp ->
      exists c arr, colors !! i = Some c /\
        subtair lv i temp (tair raw) = Returns arr /\
        drawn w' !! i = Some (c, arr).
Proof.
  intros Hlv Hraw Hcv Hfuel Hwf Hlen. unfold colorize.
  rewrite (convert_stmts_run temperature w raw Hraw).
  set (h1 := heap w ++ _).
  assert (Hold : forall l v, heap w !! l = Some v -> h1 !! l = Some v).
  { intros l v H. now apply lookup_app_l_Some. }
  assert (Ht : h1 !! (length (heap w) + 2)%nat = Some (tair raw)).
  { unfold h1. rewrite lookup_app_r by lia.
    now replace (length (heap w) + 2 - length (heap w))%nat with 2%nat by lia. }
  destruct (for_levels_returns colors levels (length (heap w) + 2) lats lons
              (World h1 (canvas w)) lv (tair raw) fuel)
    as (news & cs & Hrun & Hncs & Hnnews & Hcs); auto.
  rewrite Hrun. cbn [heap canvas]. rewrite Hcv. cbn [app].
  eexists. split; [reflexivity|]. cbn [heap canvas].
  split; [now apply lookup_app_l_Some, Hold|].
  split.
  { unfold drawn. cbn [canvas]. now rewrite length_fmap, new_layers_length. }
  intros i temp Hi.
  destruct (cs !! i) as [c|] eqn:Hc.
  2:{ apply lookup_ge_None in Hc. apply lookup_lt_Some in Hi. lia. }
  destruct (Hcs i c Hc) as (Hcol & temp' & arr & Hi' & Hsub & Hnew).
  assert (temp' = temp) as -> by congruence.
  exists c, arr. split; [exact Hcol|]. split; [exact Hsub|].
  unfold drawn, new_layers. cbn [canvas heap].
  rewrite list_lookup_fmap, list_lookup_imap, Hc. cbn.
  do 2 f_equal. apply list_lookup_total_correct.
  rewrite lookup_app_r by lia.
  now replace (length h1 + i - length h1)%nat with i by lia.
Qed.

(** The cell on the observations [-9999.0, 5.0, 25.0, 75.0] and the
    notebook's schedule: 41 is drawn in the colour of level 40, 77 and 167
    in the colour of level 70, the sentinel nowhere. *)
Example colorize_scenario :
  option_map (fun r => drawn (snd r))
    (colorize 9 colors_nb 0 1 2 3
       (World [levels_nb; [-9999; 5; 25; 75]; [35; 40; 45; 50];
               [-100; -95; -90; -85]] []))
  = Some [("purple", [nan; nan; nan; nan]); ("c", [nan; nan; nan; nan]);
          ("royalblue", [nan; nan; nan; nan]);
          ("darkgreen", [nan; nan; nan; nan]);
          ("green", [nan; 41; nan; nan]); ("y", [nan; nan; nan; nan]);
          ("orange", [nan; nan; nan; nan]); ("r", [nan; nan; 77; 167])]%string.
Proof. vm_compute. reflexivity. Qed.

(** ** Which bin a station falls in *)

Lemma leb_trans_f64 x y z :
  (x <=? y) = true -> (y <=? z) = true -> (x <=? z) = true.
Proof.
  rewrite !F64.leb_fcmp. unfold fcmp. intros [H1|H1] [H2|H2].
  - left. eapply F64.SFcompare_Lt_trans; eauto; discriminate.
  - left. eapply F64.SFcompare_Lt_trans; eauto; discriminate.
  - left. eapply F64.SFcompare_Eq_trans; eauto.
  - right. eapply F64.SFcompare_Eq_trans; eauto.
Qed.

Lemma ltb_leb_f64 x y : (x <? y) = true -> (x <=? y) = true.
Proof. rewrite F64.ltb_fcmp, F64.leb_fcmp. auto. Qed.

(** Levels at positions [i <= j] of a schedule in increasing order. *)
Lemma increasing_lookup_le levels i j x y :
  well_formed levels = true -> (i <= j)%nat ->
  levels !! i = Some x -> levels !! j = Some y -> (x <=? y) = true.
Proof.
  intros Hwf Hij Hi Hj. destruct (decide (i = j)) as [->|Hne].
  - assert (y = x) as -> by congruence.
    pose proof (well_formed_number _ _ _ Hwf Hi) as Hx.
    now rewrite F64.leb_negb_ltb, F64.ltb_irrefl.
  - apply ltb_leb_f64.
    eapply (strictly_increasing_lookup levels i j); eauto;
      [now apply well_formed_increasing | lia].
Qed.

(** A defined entry of a filtered array is the entry of the array that was
    filtered. *)
Lemma defined_in_bin_entry levels (a : ndarray) i k :
  defined_in_bin levels a i k = true ->
  exists temp arr v, levels !! i = Some temp /\
    subtair levels i temp a = Returns arr /\
    a !! k = Some v /\ arr !! k = Some v /\ is_nan v = false.
Proof.
  unfold defined_in_bin. intros H.
  destruct (levels !! i) as [temp|]; [|discriminate].
  destruct (subtair levels i temp a) as [arr|] eqn:E; [|discriminate].
  destruct (arr !! k) as [x|] eqn:Hx; [|discriminate].
  apply negb_true_iff in H.
  destruct (subtair_shape _ _ _ _ _ E) as [Hlen Hkeep].
  destruct (a !! k) as [v|] eqn:Hv.
  2:{ apply lookup_ge_None in Hv. apply lookup_lt_Some in Hx. lia. }
  exists temp, arr, v. destruct (Hkeep k v Hv) as [Hk|Hk];
    rewrite Hx in Hk; injection Hk as ->; auto. discriminate.
Qed.

Lemma defined_in_top levels i Lmax (a : ndarray) k v :
  well_formed levels = true -> levels !! i = Some Lmax ->
  S i = length levels -> a !! k = Some v -> is_nan v = false ->
  defined_in_bin levels a i k = (Lmax <=? v).
Proof.
  intros Hwf Hi Hlast Hk Hv.
  destruct (top_entry levels i Lmax a k v) as (arr & E & Hentry); auto.
  unfold defined_in_bin. rewrite Hi, E, Hentry.
  destruct (Lmax <=? v); simpl; [now rewrite Hv|reflexivity].
Qed.

Lemma defined_in_bottom levels L0 (a : ndarray) k v :
  well_formed levels = true -> (2 <= length levels)%nat ->
  levels !! 0%nat = Some L0 -> a !! k = Some v -> is_nan v = false ->
  defined_in_bin levels a 0 k = (v <? L0).
Proof.
  intros Hwf Hlen H0 Hk Hv.
  destruct (bottom_entry levels L0 a k v) as (arr & E & Hentry); auto.
  unfold defined_in_bin. rewrite H0, E, Hentry.
  destruct (v <? L0); simpl; [now rewrite Hv|reflexivity].
Qed.

(** The three ways a number can be defined in the bin of position [i]. *)
Lemma defined_in_bin_cases levels (a : ndarray) i k :
  well_formed levels = true -> defined_in_bin levels a i k = true ->
  exists Li v, levels !! i = Some Li /\ a !! k = Some v /\
    is_nan v = false /\
    ((S i = length levels /\ (Li <=? v) = true) \/
     (i = 0%nat /\ (2 <= length levels)%nat /\ (v <? Li) = true) \/
     ((0 < i)%nat /\ exists Ln, levels !! S i = Some Ln /\
        (Li <=? v) = true /\ (v <? Ln) = true)).
Proof.
  intros Hwf Hdef.
  destruct (defined_in_bin_entry _ _ _ _ Hdef)
    as (Li & arr & v & Hi & _ & Hk & _ & Hv).
  exists Li, v. repeat (split; [assumption|]).
  pose proof (lookup_lt_Some _ _ _ Hi) as Hlen.
  destruct (decide (S i = length levels)) as [Hlast|Hlast].
  - left. rewrite (defined_in_top levels i Li a k v) in Hdef; auto.
  - right. destruct (levels !! S i) as [Ln|] eqn:Hn.
    2:{ apply lookup_ge_None in Hn. lia. }
    pose proof (lookup_lt_Some _ _ _ Hn) as Hlen'.
    destruct i as [|i].
    + left. rewrite (defined_in_bottom levels Li a k v) in Hdef; auto; lia.
    + right. split; [lia|]. exists Ln. split; [reflexivity|].
      rewrite (defined_in_interior levels (S i) Li Ln a k v) in Hdef;
        auto; [|lia].
      now apply andb_true_iff in Hdef.
Qed.

Lemma bins_ordered_disjoint levels (a : ndarray) k i j :
  well_formed levels = true -> (i < j)%nat ->
  defined_in_bin levels a i k = true ->
  defined_in_bin levels a j k = true -> False.
Proof.
  intros Hwf Hij Hi Hj.
  destruct (defined_in_bin_cases _ _ _ _ Hwf Hi)
    as (Li & v & Hli & Hk & Hv & Hci).
  destruct (defined_in_bin_cases _ _ _ _ Hwf Hj)
    as (Lj & v' & Hlj & Hk' & _ & Hcj).
  assert (v' = v) as -> by congruence.
  pose proof (lookup_lt_Some _ _ _ Hlj) as Hlen.
  assert (Hlow : (Lj <=? v) = true).
  { destruct Hcj as [[_ H]|[(-> & _)|(_ & Ln & _ & H & _)]];
      [exact H|lia|exact H]. }
  assert (Hup : (v <? Lj) = true).
  { destruct Hci as [[Hlast _]|[(-> & _ & H)|(_ & Ln & Hn & _ & H)]].
    - lia.
    - eapply F64.ltb_trans; [exact H|].
      eapply (strictly_increasing_lookup levels 0 j); eauto.
      now apply well_formed_increasing.
    - eapply F64.ltb_leb_trans; [exact H|].
      eapply (increasing_lookup_le levels (S i) j); eauto. }
  apply F64.ltb_not_leb in Hup. congruence.
Qed.

(** X2: on a schedule in increasing order no position of the array is
    defined in the filtered arrays of two different levels, so no station
    is labelled twice. *)
Theorem bins_disjoint levels (a : ndarray) k i j :
  well_formed levels = true ->
  defined_in_bin levels a i k = true ->
  defined_in_bin levels a j k = true -> i = j.
Proof.
  intros Hwf Hi Hj.
  destruct (Nat.lt_trichotomy i j) as [H|[H|H]]; [exfalso|exact H|exfalso].
  - eapply (bins_ordered_disjoint levels a k i j); eauto.
  - eapply (bins_ordered_disjoint levels a k j i); eauto.
Qed.

Lemma bins_disjoint_witness : 4%nat = 4%nat.
Proof.
  apply (bins_disjoint levels_nb [41; 77; 167] 0 4 4); reflexivity.
Defined.

(** X3: on a schedule in increasing order with at least two levels, a
    number [v] of the array is defined in the filtered array of some level
    exactly when [v < levels[0]] or [v >= levels[1]]: a value with
    [levels[0] <= v < levels[1]] is drawn in no colour at all. *)
Theorem drawn_in_some_bin_iff levels L0 L1 (a : ndarray) k v :
  well_formed levels = true ->
  levels !! 0%nat = Some L0 -> levels !! 1%nat = Some L1 ->
  a !! k = Some v -> is_nan v = false ->
  (exists i, defined_in_bin levels a i k = true) <->
  (v <? L0) = true \/ (L1 <=? v) = true.
Proof.
  intros Hwf H0 H1 Hk Hv.
  pose proof (lookup_lt_Some _ _ _ H1) as Hlen.
  split.
  - intros [i Hdef].
    destruct (defined_in_bin_cases _ _ _ _ Hwf Hdef)
      as (Li & v' & Hi & Hk' & _ & Hc).
    assert (v' = v) as -> by congruence.
    destruct Hc as [[Hlast H]|[(-> & _ & H)|(Hpos & Ln & _ & H & _)]].
    + right. eapply leb_trans_f64; [|exact H].
      eapply (increasing_lookup_le levels 1 i); eauto. lia.
    + left. congruence.
    + right. eapply leb_trans_f64; [|exact H].
      eapply (increasing_lookup_le levels 1 i); eauto.
  - intros [Hlt|Hge].
    + exists 0%nat. now rewrite (defined_in_bottom levels L0 a k v).
    + destruct (levels !! (length levels - 1)%nat) as [Lmax|] eqn:Hmax.
      2:{ apply lookup_ge_None in Hmax. lia. }
      destruct (v <? Lmax) eqn:Hcmp.
      * destruct (enclosing_levels levels v Hwf Hv (length levels - 2) 1
                    L1 Lmax) as (i & Li & Ln & Hr & Hi & Hn & Hlo & Hhi);
          auto.
        { now replace (1 + (length levels - 2))%nat
            with (length levels - 1)%nat by lia. }
        exists i.
        rewrite (defined_in_interior levels i Li Ln a k v); auto; [|lia].
        now rewrite Hlo, Hhi.
      * exists (length levels - 1)%nat.
        rewrite (defined_in_top levels _ Lmax a k v); auto; [|lia].
        rewrite F64.leb_negb_ltb, Hcmp; auto.
        eapply well_formed_number; eauto.
Qed.

Lemma drawn_in_some_bin_iff_witness :
  (exists i, defined_in_bin levels_nb [5; 41] i 0 = true) <->
  (5 <? 0) = true \/ (10 <=? 5) = true.
Proof.
  apply (drawn_in_some_bin_iff levels_nb 0 10 [5; 41] 0 5); reflexivity.
Defined.

(** X6: whatever the schedule, a number in the filtered array of a level
    is the converted observation of the same position: the observation
    there is a number other than the sentinel, and the entry is its
    [c*1.8+32].  A sentinel or missing observation is never drawn, and no
    station is labelled with another station's value. *)
Theorem defined_entry_is_converted_observation
    temperature levels i temp arr k x :
  subtair levels i temp (tair temperature) = Returns arr ->
  arr !! k = Some x -> is_nan x = false ->
  exists c, temperature !! k = Some c /\ is_nan c = false /\
    (c =? sentinel) = false /\ x = c * c_1_8 + 32.
Proof.
  intros Hsub Hx Hnum.
  destruct (subtair_shape _ _ _ _ _ Hsub) as [Hlen Hkeep].
  destruct (tair temperature !! k) as [y|] eqn:Hy.
  2:{ apply lookup_ge_None in Hy. apply lookup_lt_Some in Hx. lia. }
  assert (y = x) as ->.
  { destruct (Hkeep k y Hy) as [H|H]; rewrite Hx in H;
      injection H as ->; [reflexivity|discriminate]. }
  rewrite tair_lookup in Hy.
  destruct (temperature !! k) as [c|]; [|discriminate].
  simpl in Hy. injection Hy as Hy. exists c.
  destruct (c =? sentinel) eqn:Hs.
  { subst x. discriminate. }
  destruct (is_nan c) eqn:Hc.
  { apply F64.is_nan_eq in Hc. subst c x. discriminate. }
  auto.
Qed.

Lemma defined_entry_is_converted_observation_witness :
  exists c, [-9999; 5; 25; 75] !! 1%nat = Some c /\ is_nan c = false /\
    (c =? sentinel) = false /\ 41 = c * c_1_8 + 32.
Proof.
  apply (defined_entry_is_converted_observation [-9999; 5; 25; 75]
           levels_nb 4 40 [nan; 41; nan; nan] 1 41); reflexivity.
Defined.

(** ** Conversion in the store *)

(** X7: lines 204-206 change no object that was in the store before them,
    so [obs['temperature']] keeps its sentinels; the masked assignment
    lands in the copy made by [np.array].  The location bound to [tair]
    is new and holds the converted array; nothing is drawn. *)
Theorem conversion_leaves_observations_unchanged temperature w raw :
  heap w !! temperature = Some raw ->
  exists t w',
    convert_stmts temperature w = (Returns t, w') /\
    heap w !! t = None /\
    heap w' !! t = Some (tair raw) /\
    (forall l v, heap w !! l = Some v -> heap w' !! l = Some v) /\
    canvas w' = canvas w.
Proof.
  intros H. eexists _, _.
  split; [exact (convert_stmts_run temperature w raw H)|].
  cbn [heap canvas]. split; [apply lookup_ge_None; lia|]. split.
  - rewrite lookup_app_r by lia.
    now replace (length (heap w) + 2 - length (heap w))%nat with 2%nat by lia.
  - split; [|reflexivity]. intros l v Hl. now apply lookup_app_l_Some.
Qed.

Lemma conversion_leaves_observations_unchanged_witness :
  exists t w',
    convert_stmts 1 world_nb = (Returns t, w') /\
    heap world_nb !! t = None /\
    heap w' !! t = Some (tair [nan; 41; 77; 167]) /\
    (forall l v, heap world_nb !! l = Some v -> heap w' !! l = Some v) /\
    canvas w' = canvas world_nb.
Proof.
  apply (conversion_leaves_observations_unchanged 1 world_nb
           [nan; 41; 77; 167]). reflexivity.
Defined.

(** ** Edge cases of the schedule *)

(** X5: with an empty schedule the cell converts the observations, runs
    no loop body and returns: nothing is drawn and no object of the store
    is changed, whatever the colours. *)
Theorem empty_schedule_draws_nothing
    colors levels temperature lats lons w raw fuel :
  heap w !! levels = Some [] -> heap w !! temperature = Some raw ->
  (0 < fuel)%nat ->
  exists w',
    colorize fuel colors levels temperature lats lons w =
      Some (Returns tt, w') /\
    canvas w' = canvas w /\
    (forall l v, heap w !! l = Some v -> heap w' !! l = Some v).
Proof.
  intros Hlv Hraw Hfuel. unfold colorize.
  rewrite (convert_stmts_run temperature w raw Hraw).
  destruct fuel as [|fuel]; [lia|]. cbn [for_levels heap].
  rewrite (list_lookup_total_correct _ levels []).
  2:{ now apply lookup_app_l_Some. }
  cbn. eexists. split; [reflexivity|]. cbn [heap canvas].
  split; [reflexivity|]. intros l v Hl. now apply lookup_app_l_Some.
Qed.

Lemma empty_schedule_draws_nothing_witness :
  exists w',
    colorize 1 colors_nb 0 1 2 3 world_empty = Some (Returns tt, w') /\
    canvas w' = canvas world_empty /\
    (forall l v, heap world_empty !! l = Some v -> heap w' !! l = Some v).
Proof.
  apply (empty_schedule_draws_nothing colors_nb 0 1 2 3 world_empty
           [-9999; 5] 1);
    [reflexivity | reflexivity | lia].
Defined.

(** Before the last position [levels[i+1]] exists, so the body returns. *)
Lemma subtair_before_last levels i temp (a : ndarray) :
  (S i < length levels)%nat ->
  exists arr, subtair levels i temp a = Returns arr.
Proof.
  intros Hlen. unfold subtair, Py.getitem.
  destruct levels as [|x l]; [simpl in Hlen; lia|]. cbn [Py.max Py.min].
  destruct (temp =? Py.max_from x l); [eauto|].
  destruct (temp =? Py.min_from x l); [eauto|].
  destruct ((x :: l) !! (i + 1)%nat) as [next|] eqn:Hn; [eauto|].
  apply lookup_ge_None in Hn. lia.
Qed.

(** At the last position a level that is neither the maximum nor the
    minimum has no successor. *)
Lemma subtair_last_raises levels i temp mx mn (a : ndarray) :
  S i = length levels ->
  Py.max levels = Returns mx -> Py.min levels = Returns mn ->
  (temp =? mx) = false -> (temp =? mn) = false ->
  subtair levels i temp a = Raises IndexError.
Proof.
  intros Hlen Hmx Hmn H1 H2. unfold subtair, Py.getitem.
  rewrite Hmx, H1, Hmn, H2.
  rewrite (proj2 (lookup_ge_None levels (i + 1))) by lia. reflexivity.
Qed.

(** X4: a schedule out of order is found out late.  If its last entry is
    neither its maximum nor its minimum, and every level before the last
    has a colour, the loop draws a layer for every level but the last and
    then raises [IndexError] on [levels[i+1]]. *)
Theorem unsorted_schedule_raises_at_last_level
    colors levels tair lats lons w lv (a : ndarray) fuel t mx mn :
  heap w !! levels = Some lv -> heap w !! tair = Some a ->
  (length lv < fuel)%nat ->
  lv !! (length lv - 1)%nat = Some t ->
  Py.max lv = Returns mx -> Py.min lv = Returns mn ->
  (t =? mx) = false -> (t =? mn) = false ->
  (length lv - 1 <= length colors)%nat ->
  exists w',
    for_levels fuel colors levels tair lats lons 0 w =
      Some (Raises IndexError, w') /\
    length (canvas w') = (length (canvas w) + (length lv - 1))%nat.
Proof.
  intros Hlv Ha Hfuel Ht Hmx Hmn H1 H2 Hcol.
  pose proof (lookup_lt_Some _ _ _ Ht) as Hlen.
  assert (Hlast : subtair lv (length lv - 1) t a = Raises IndexError).
  { eapply subtair_last_raises; eauto. lia. }
  destruct (for_levels_run colors levels tair lats lons lv a
              (length lv) 0 w fuel Hlv Ha)
    as (out & news & cs & Hrun & Hle & Hcs & Hout); [reflexivity|lia|].
  destruct out as [[]|e].
  - exfalso. destruct Hout as [Hn _].
    destruct (cs !! (length lv - 1)%nat) as [c|] eqn:Hc.
    2:{ apply lookup_ge_None in Hc. lia. }
    destruct (Hcs _ _ Hc) as (_ & t' & arr & Ht' & Hsub & _).
    simpl in Ht', Hsub. congruence.
  - destruct Hout as (Hlt & _ & temp & Htemp & Hr). simpl in Htemp, Hr.
    assert (Hj : length cs = (length lv - 1)%nat).
    { destruct (decide (length cs = length lv - 1)%nat) as [|Hne];
        [assumption|exfalso].
      destruct (subtair_before_last lv (length cs) temp a) as [arr E];
        [lia|].
      destruct Hr as [Hr|(_ & Hnone & _)]; [congruence|].
      apply lookup_ge_None in Hnone. lia. }
    rewrite Hj in Htemp, Hr. assert (temp = t) as -> by congruence.
    assert (e = IndexError) as ->.
    { destruct Hr as [Hr|(-> & _)]; [congruence|reflexivity]. }
    eexists. split; [exact Hrun|]. cbn [canvas].
    rewrite length_app, new_layers_length. lia.
Qed.

Lemma unsorted_schedule_raises_at_last_level_witness :
  exists w',
    for_levels 4 colors_nb 0 1 2 3 0 world_unsorted =
      Some (Raises IndexError, w') /\
    length (canvas w') =
      (length (canvas world_unsorted) + (length [0; 20; 10]%float - 1))%nat.
Proof.
  apply (unsorted_schedule_raises_at_last_level colors_nb 0 1 2 3
           world_unsorted [0; 20; 10] [nan; 41; 77; 167] 4 10 20 0);
    [reflexivity | reflexivity | simpl; lia | reflexivity | reflexivity
    | reflexivity | reflexivity | reflexivity | simpl; lia].
Defined.

(** X9: a level that is neither the maximum nor the minimum and whose
    successor in the list is not larger gets an entirely undefined array:
    with repeated or descending levels the bin is empty, not an error. *)
Theorem interior_bin_empty_when_not_increasing
    levels i temp next mx mn (a : ndarray) :
  Py.max levels = Returns mx -> Py.min levels = Returns mn ->
  (temp =? mx) = false -> (temp =? mn) = false ->
  levels !! S i = Some next -> (next <=? temp) = true ->
  exists arr, subtair levels i temp a = Returns arr /\
    length arr = length a /\
    forall k, (k < length a)%nat -> arr !! k = Some nan.
Proof.
  intros Hmx Hmn H1 H2 Hn Hle.
  unfold subtair, Py.getitem. rewrite Hmx, H1, Hmn, H2.
  replace (i + 1)%nat with (S i) by lia. rewrite Hn.
  eexists. split; [reflexivity|].
  split; [now rewrite !putmask_nan_length|].
  intros k Hk. destruct (a !! k) as [v|] eqn:Hv.
  2:{ apply lookup_ge_None in Hv. lia. }
  rewrite !putmask_nan_lookup, Hv. simpl.
  destruct (v <? temp) eqn:Hlt; simpl.
  - now destruct (next <=? nan).
  - destruct (is_nan v) eqn:Hnan.
    + apply F64.is_nan_eq in Hnan as ->. now destruct (next <=? nan).
    + assert (Htemp : is_nan temp = false).
      { pose proof Hle as E. apply F64.leb_fcmp in E.
        destruct E as [E|E]; apply F64.fcmp_defined in E; tauto. }
      assert (Hge : (temp <=? v) = true)
        by (rewrite F64.leb_negb_ltb, Hlt; auto).
      now rewrite (leb_trans_f64 _ _ _ Hle Hge).
Qed.

Lemma interior_bin_empty_when_not_increasing_witness :
  exists arr, subtair [70; 40; 10; 0] 1 40 [41; 77; 5] = Returns arr /\
    length arr = length [41; 77; 5] /\
    forall k, (k < length [41; 77; 5]%float)%nat -> arr !! k = Some nan.
Proof.
  apply (interior_bin_empty_when_not_increasing [70; 40; 10; 0] 1 40 10 70 0
           [41; 77; 5]); reflexivity.
Defined.

Lemma colorize_draws_bins_witness :
  exists w',
    colorize 9 colors_nb 0 1 2 3 world_obs = Some (Returns tt, w') /\
    heap w' !! 1%nat = Some [-9999; 5; 25; 75] /\
    length (drawn w') = length levels_nb /\
    forall i temp, levels_nb !! i = Some temp ->
      exists c arr, colors_nb !! i = Some c /\
        subtair levels_nb i temp (tair [-9999; 5; 25; 75]) = Returns arr /\
        drawn w' !! i = Some (c, arr).
Proof.
  apply (colorize_draws_bins colors_nb 0 1 2 3 world_obs levels_nb
           [-9999; 5; 25; 75] 9);
    [reflexivity | reflexivity | reflexivity | simpl; lia | reflexivity
    | simpl; lia].
Defined.

(** ** The envelope *)

(** X8: the ring for [Polygon] exists exactly when [bbox] has at least
    four entries (otherwise indexing raises [IndexError]; further entries
    are ignored).  It has five vertices, is closed, and every vertex takes
    its first coordinate from [bbox[0]] or [bbox[1]] and its second from
    [bbox[2]] or [bbox[3]]: the request covers the box the plot takes as
    its extent. *)
Theorem envelope_ring_is_the_bbox (bbox : list Z) :
  match envelope_ring bbox with
  | Returns ring =>
    (4 <= length bbox)%nat /\ length ring = 5%nat /\
    ring !! 0%nat = ring !! 4%nat /\
    forall p, p ∈ ring ->
      (bbox !! 0%nat = Some p.1 \/ bbox !! 1%nat = Some p.1) /\
      (bbox !! 2%nat = Some p.2 \/ bbox !! 3%nat = Some p.2)
  | Raises e => e = IndexError /\ (length bbox < 4)%nat
  end.
Proof.
  destruct bbox as [|x0 [|x1 [|y0 [|y1 rest]]]]; cbn;
    try (split; [reflexivity|lia]).
  split; [lia|]. split; [reflexivity|]. split; [reflexivity|].
  intros p Hp. repeat (apply elem_of_cons in Hp as [->|Hp]); cbn; auto.
  inversion Hp.
Qed.
